(** * Dissociation queries over a neuroimaging-study corpus

    A shallow embedding of [app.py]: the coordinate parser
    [parse_coords], the engine cache [get_engine] and the two Flask views
    [dissociate_by_term] and [dissociate_by_location], together with the
    parts of Python, werkzeug and the SQL engine these functions rely on.

    Conventions of the embedding.
    - A Python [str] is a [string]; each [ascii] is read as the Unicode
      code point of the same number, so the model covers the strings
      whose code points are below 256.
    - A Python [float] is a [spec_float] at precision 53 and maximal
      exponent 1024 (IEEE 754 binary64).
    - Code that may raise returns an [outcome]; code that also touches the
      process ([os.environ], the module global [_engine], the database
      connection) runs in the state monad [M] over [world]. *)

From Stdlib Require Import ZArith String Ascii List Bool Lia.
From Stdlib Require Import Floats.SpecFloat DecimalString DecimalZ DecimalPos.
From stdpp Require Import base tactics option list strings.

Set Warnings "-register-all".

Open Scope string_scope.
Open Scope Z_scope.

(** ** Python values and exceptions *)

(** The exception classes that the code names or that reach its handlers.
    [OtherException] stands for every other subclass of [Exception]
    (for instance the [ProgrammingError] and [DataError] of the driver);
    [HTTPException] is what [flask.abort] raises. *)
Inductive exn_class : Type :=
  | ValueError
  | TypeError
  | RuntimeError
  | OperationalError
  | HTTPException (code : Z)
  | OtherException.

(** An exception object: its class and the text [str(e)] returns. *)
Record exn : Type := mkExn { exn_cls : exn_class; exn_str : string }.

Inductive outcome (A : Type) : Type :=
  | Ok (a : A)
  | Raise (e : exn).
Arguments Ok {A} a.
Arguments Raise {A} e.

(** A Python number bound to a query parameter or echoed in a response:
    the default radius is the [int] 10, a parsed radius is a [float]. *)
Inductive number : Type :=
  | NInt (z : Z)
  | NFloat (f : spec_float).

(** The values [jsonify] is given. A [dict] keeps its keys in insertion
    order. *)
Inductive pyval : Type :=
  | PyNum (n : number)
  | PyStr (s : string)
  | PyList (l : list pyval)
  | PyDict (d : list (string * pyval)).

(** ** binary64 *)

Definition prec : Z := 53.
Definition emax : Z := 1024.

(** [float(n)] for a Python [int] [n]. *)
Definition float_of_Z (z : Z) : spec_float := binary_normalize prec emax z 0 false.

(** The binary64 nearest to [m * 10 ^ e10] (ties to even), which is what
    the [strtod] of CPython computes; a magnitude beyond the largest
    finite float gives an infinity and one below the smallest subnormal
    gives a zero. *)
Definition decimal_to_float (neg : bool) (m : Z) (e10 : Z) : spec_float :=
  if 0 <=? e10 then
    binary_normalize prec emax (cond_Zopp neg (m * 10 ^ e10)) 0 neg
  else if m =? 0 then S754_zero neg
  else
    let '(mz, ez, lz) := SFdiv_core_binary prec emax m 0 (10 ^ (- e10)) 0 in
    binary_round_aux prec emax neg mz ez lz.

Definition is_finite (f : spec_float) : bool :=
  match f with
  | S754_zero _ | S754_finite _ _ _ => true
  | S754_infinity _ | S754_nan => false
  end.

(** ** Strings *)

(** [str.split(sep)] for a one-character separator: every occurrence
    splits, and the result always has at least one part. *)
Fixpoint split (sep : ascii) (s : string) : list string :=
  match s with
  | EmptyString => [EmptyString]
  | String c s' =>
      if Ascii.eqb c sep then EmptyString :: split sep s'
      else match split sep s' with
           | p :: ps => String c p :: ps
           | [] => [String c EmptyString]
           end
  end.

Definition code (c : ascii) : Z := Z.of_nat (nat_of_ascii c).

Definition char_of_code (z : Z) : ascii := ascii_of_nat (Z.to_nat z).

(** [str.lower()] on one code point below 256: the ASCII capitals and the
    Latin-1 capitals (U+00C0 to U+00DE except the multiplication sign)
    move up by 32. *)
Definition lower_char (c : ascii) : ascii :=
  let n := code c in
  if ((65 <=? n) && (n <=? 90)) || ((192 <=? n) && (n <=? 222) && negb (n =? 215))
  then char_of_code (n + 32) else c.

Fixpoint lower (s : string) : string :=
  match s with
  | EmptyString => EmptyString
  | String c s' => String (lower_char c) (lower s')
  end.

(** [startswith] is [String.prefix]; [s[n:]] drops [n] characters. *)
Fixpoint drop_chars (n : nat) (s : string) : string :=
  match n, s with
  | O, _ => s
  | S n', String _ s' => drop_chars n' s'
  | S _, EmptyString => EmptyString
  end.

(** ** [float(str)] *)

(** [Py_ISSPACE] after [_PyUnicode_TransformDecimalAndSpaceToASCII]: the
    ASCII blanks, and the two Unicode blanks below 256 (U+0085, U+00A0),
    which the transformation turns into a space. U+001C to U+001F are kept
    as they are and are not blanks for [float]. *)
Definition is_float_space (c : ascii) : bool :=
  let n := code c in
  ((9 <=? n) && (n <=? 13)) || (n =? 32) || (n =? 133) || (n =? 160).

Definition is_digit (c : ascii) : bool :=
  let n := code c in (48 <=? n) && (n <=? 57).

Definition digit_value (c : ascii) : Z := code c - 48.

Fixpoint lstrip (s : string) : string :=
  match s with
  | String c s' => if is_float_space c then lstrip s' else s
  | EmptyString => EmptyString
  end.

(** Trailing blanks go, but never the first character of the string
    ([while (s < last - 1 && Py_ISSPACE(last[-1]))]). *)
Fixpoint rstrip_tail (s : string) : string :=
  match s with
  | EmptyString => EmptyString
  | String c s' =>
      match rstrip_tail s' with
      | EmptyString => if is_float_space c then EmptyString else String c EmptyString
      | r => String c r
      end
  end.

Definition rstrip (s : string) : string :=
  match s with
  | EmptyString => EmptyString
  | String c s' => String c (rstrip_tail s')
  end.

(** [_Py_string_to_number_with_underscores]: an underscore is allowed only
    between two digits; the underscores are then removed. [prev] is the
    previous character, if any. *)
Fixpoint remove_underscores (prev : option ascii) (s : string) : option string :=
  match s with
  | EmptyString =>
      match prev with
      | Some "_"%char => None
      | _ => Some EmptyString
      end
  | String c s' =>
      if Ascii.eqb c "_" then
        match prev with
        | Some p => if is_digit p then remove_underscores (Some c) s' else None
        | None => None
        end
      else
        match prev with
        | Some "_"%char =>
            if is_digit c then String c <$> remove_underscores (Some c) s' else None
        | _ => String c <$> remove_underscores (Some c) s'
        end
  end.

(** The longest run of digits at the head of [s]: its value on top of
    [acc], its length, and what follows. *)
Fixpoint take_digits (acc : Z) (s : string) : Z * Z * string :=
  match s with
  | String c s' =>
      if is_digit c then
        let '(v, n, r) := take_digits (10 * acc + digit_value c) s' in (v, n + 1, r)
      else (acc, 0, s)
  | EmptyString => (acc, 0, EmptyString)
  end.

(** An optional sign; [true] is minus. *)
Definition take_sign (s : string) : bool * string :=
  match s with
  | String "-" r => (true, r)
  | String "+" r => (false, r)
  | _ => (false, s)
  end.

(** [_Py_parse_inf_or_nan] on the text after the sign, with the
    requirement of [float_from_string_inner] that nothing is left. *)
Definition parse_inf_or_nan (neg : bool) (body : string) : option spec_float :=
  let l := lower body in
  if String.eqb l "inf" || String.eqb l "infinity" then Some (S754_infinity neg)
  else if String.eqb l "nan" then Some S754_nan
  else None.

(** [_Py_dg_strtod] on the text after the sign, again with nothing left:
    digits with an optional point, at least one digit in all, and an
    optional exponent which needs at least one digit. *)
Definition parse_decimal (neg : bool) (body : string) : option spec_float :=
  let '(ip, ni, r1) := take_digits 0 body in
  let '(m, nf, r2) :=
    match r1 with
    | String "." r => take_digits ip r
    | _ => (ip, 0, r1)
    end in
  if ni + nf =? 0 then None
  else
    match r2 with
    | EmptyString => Some (decimal_to_float neg m (- nf))
    | String c r3 =>
        if Ascii.eqb c "e" || Ascii.eqb c "E" then
          let '(eneg, r4) := take_sign r3 in
          match take_digits 0 r4 with
          | (ev, ne, EmptyString) =>
              if ne =? 0 then None
              else Some (decimal_to_float neg m ((if eneg then - ev else ev) - nf))
          | _ => None
          end
        else None
    end.

Definition float_from_string_inner (s : string) : option spec_float :=
  let '(neg, body) := take_sign s in
  match parse_inf_or_nan neg body with
  | Some f => Some f
  | None => parse_decimal neg body
  end.

Definition has_underscore (s : string) : bool :=
  existsb (Ascii.eqb "_") (list_ascii_of_string s).

Definition could_not_convert : exn :=
  mkExn ValueError "could not convert string to float".

(** [float(s)] for a [str] [s]. A code point from 127 on that is not a
    blank becomes a question mark, which no number contains. *)
Definition py_float (s : string) : outcome spec_float :=
  let t := rstrip (lstrip s) in
  let u := if has_underscore t then remove_underscores None t else Some t in
  match u ≫= float_from_string_inner with
  | Some f => Ok f
  | None => Raise could_not_convert
  end.

(** ** Exceptions without state *)

Definition obind {A B : Type} (m : outcome A) (k : A → outcome B) : outcome B :=
  match m with
  | Ok a => k a
  | Raise e => Raise e
  end.

(** A list comprehension [[f(p) for p in l]] whose [f] may raise: the
    first failure ends it. *)
Fixpoint comprehension {A B : Type} (f : A → outcome B) (l : list A) : outcome (list B) :=
  match l with
  | [] => Ok []
  | a :: l' => obind (f a) (λ b, obind (comprehension f l') (λ bs, Ok (b :: bs)))
  end.

(** [isinstance(e, classes)] for an [except (c1, c2, ...)] clause. *)
Definition exn_class_eqb (c d : exn_class) : bool :=
  match c, d with
  | ValueError, ValueError | TypeError, TypeError | RuntimeError, RuntimeError
  | OperationalError, OperationalError | OtherException, OtherException => true
  | HTTPException m, HTTPException n => m =? n
  | _, _ => false
  end.

Definition caught_by (classes : list exn_class) (e : exn) : bool :=
  existsb (exn_class_eqb (exn_cls e)) classes.

(** ** [parse_coords] *)

Definition coords : Type := spec_float * spec_float * spec_float.

(** The body of the [try]: [Ok (Some t)] is [return tuple(parts)],
    [Ok None] is falling out of the [if]. *)
Definition parse_coords_try (coords_str : string) : outcome (option coords) :=
  obind (comprehension py_float (split "_" coords_str)) (λ parts,
    match parts with
    | [x; y; z] => Ok (Some (x, y, z))
    | _ => Ok None
    end).

Definition parse_coords (coords_str : string) : outcome (option coords) :=
  match parse_coords_try coords_str with
  | Ok (Some t) => Ok (Some t)
  | Ok None => Ok None
  | Raise e => if caught_by [ValueError; TypeError] e then Ok None else Raise e
  end.

(** ** The storage engine *)

(** The spatial functions of the database that the location query calls.
    Their meaning belongs to the database; the development holds for every
    implementation of them. *)
Class PostGIS : Type := {
  geometry : Type;
  ST_MakePoint : number → number → number → geometry;
  ST_SetSRID : geometry → Z → geometry;
  ST_DWithin : geometry → geometry → number → bool;
}.

(** A value bound to a named parameter of a statement. *)
Inductive bindval : Type :=
  | BStr (s : string)
  | BNum (n : number).

Definition params : Type := list (string * bindval).

(** [d.get(k)] on a dictionary kept as an association list, and [d[k] = v]:
    an existing key keeps its place, a new key goes last. *)
Fixpoint dict_get {V : Type} (k : string) (d : list (string * V)) : option V :=
  match d with
  | [] => None
  | (k', v) :: d' => if String.eqb k k' then Some v else dict_get k d'
  end.

Fixpoint dict_set {V : Type} (k : string) (v : V) (d : list (string * V)) : list (string * V) :=
  match d with
  | [] => [(k, v)]
  | (k', v') :: d' => if String.eqb k k' then (k, v) :: d' else (k', v') :: dict_set k v d'
  end.

(** The two [SELECT]s of the source, by the names of their parameters:
    [SELECT study_id FROM ns.annotations_terms WHERE term = :t], and
    [SELECT study_id FROM ns.coordinates WHERE ST_DWithin(geom,
    ST_SetSRID(ST_MakePoint(:x, :y, :z), 4326), :r)]. *)
Inductive select : Type :=
  | SelectTerm (t : string)
  | SelectNear (x y z r : string).

(** [left EXCEPT right LIMIT limit]. *)
Record statement : Type := mkStatement {
  st_left : select;
  st_right : select;
  st_limit : nat;
}.

Record engine : Type := mkEngine { url : string; pool_pre_ping : bool }.

Section Storage.
Context `{PostGIS}.

(** The columns of the two tables that the queries read; they hold no
    NULL. A table is the list of its rows in the order the engine scans
    them. *)
Record annotations_terms_row : Type := mkAnnotation {
  at_study_id : Z;
  at_term : string;
}.

Record coordinates_row : Type := mkCoordinate {
  c_study_id : Z;
  c_geom : geometry;
}.

Record database : Type := mkDatabase {
  annotations_terms : list annotations_terms_row;
  coordinates : list coordinates_row;
}.

(** The study ids with a row tagged [t], one per row. *)
Definition tagged (db : database) (t : string) : list Z :=
  at_study_id <$> filter (λ r, at_term r = t) (annotations_terms db).

(** The study ids with a row within [r] of the point, one per row. *)
Definition near (db : database) (x y z r : number) : list Z :=
  c_study_id <$>
    filter (λ row, ST_DWithin (c_geom row) (ST_SetSRID (ST_MakePoint x y z) 4326) r = true)
           (coordinates db).

Definition bound_number (b : string) (ps : params) : option number :=
  match dict_get b ps with
  | Some (BNum n) => Some n
  | _ => None
  end.

(** [None] when a parameter is not bound or has the wrong type. *)
Definition eval_select (db : database) (ps : params) (q : select) : option (list Z) :=
  match q with
  | SelectTerm t =>
      match dict_get t ps with
      | Some (BStr s) => Some (tagged db s)
      | _ => None
      end
  | SelectNear x y z r =>
      vx ← bound_number x ps; vy ← bound_number y ps; vz ← bound_number z ps;
      vr ← bound_number r ps;
      Some (near db vx vy vz vr)
  end.

(** [EXCEPT] keeps the distinct rows of the left side that the right
    side does not have. SQL leaves their order to the engine; here it
    is the scan order of the table (an id with several rows stands where
    its last row is), so that every order is the order of some table. *)
Definition sql_except (l r : list Z) : list Z :=
  remove_dups (list_difference l r).

Definition eval_statement (db : database) (ps : params) (st : statement) : option (list Z) :=
  l ← eval_select db ps (st_left st);
  r ← eval_select db ps (st_right st);
  Some (take (st_limit st) (sql_except l r)).

(** *** The process *)

(** [flask.request], of which the views read [args] only. *)
Record request_t : Type := mkRequest { args : list (string * string) }.

(** What a view can see or change, and what decides the failures of the
    calls that leave the process: [create_engine], [engine.connect()]
    and the successive calls of [conn.execute], each of which either
    goes through ([None]) or raises. [executed] is the log of the
    statements sent to the database, the latest last. *)
Record world : Type := mkWorld {
  environ : list (string * string);
  _engine : option engine;
  request : request_t;
  ns : database;
  create_engine_fault : option exn;
  connect_fault : option exn;
  execute_faults : list (option exn);
  executed : list (statement * params);
}.

Definition M (A : Type) : Type := world → outcome A * world.

Definition ret {A : Type} (a : A) : M A := λ w, (Ok a, w).

Definition raise {A : Type} (e : exn) : M A := λ w, (Raise e, w).

Definition bind {A B : Type} (m : M A) (k : A → M B) : M B :=
  λ w, match m w with
       | (Ok a, w') => k a w'
       | (Raise e, w') => (Raise e, w')
       end.

Definition lift {A : Type} (o : outcome A) : M A := λ w, (o, w).

(** [try: body] followed by [except] clauses, tried in order; what an
    earlier statement changed stays changed. A clause is the test
    [isinstance(e, classes)] and its handler. *)
Fixpoint handle {A : Type} (clauses : list ((exn → bool) * (exn → M A))) (e : exn) : M A :=
  match clauses with
  | [] => raise e
  | (catches, handler) :: rest =>
      if catches e then handler e else handle rest e
  end.

Definition try_except {A : Type} (body : M A)
    (clauses : list ((exn → bool) * (exn → M A))) : M A :=
  λ w, match body w with
       | (Ok a, w') => (Ok a, w')
       | (Raise e, w') => handle clauses e w'
       end.

(** [except Exception]: every class of the model derives from it. *)
Definition Exception (e : exn) : bool := true.

Notation "x <- m ;; k" := (bind m (λ x, k))
  (at level 100, m at next level, right associativity).

(** *** [get_engine] *)

Definition getenv (k : string) : M (option string) :=
  λ w, (Ok (dict_get k (environ w)), w).

(** Truth of a value that is [None] or a [str]. *)
Definition truthy (o : option string) : bool :=
  match o with
  | Some (String _ _) => true
  | _ => false
  end.

Definition or_else (a b : option string) : option string :=
  if truthy a then a else b.

(** [create_engine(db_url, pool_pre_ping=True)]: it opens no connection,
    and fails when the world says so (a URL it cannot read, a missing
    driver). *)
Definition create_engine (db_url : string) (pre_ping : bool) : M engine :=
  λ w, match create_engine_fault w with
       | Some e => (Raise e, w)
       | None => (Ok (mkEngine db_url pre_ping), w)
       end.

Definition set_engine (e : engine) : M unit :=
  λ w, (Ok tt, mkWorld (environ w) (Some e) (request w) (ns w) (create_engine_fault w)
                       (connect_fault w) (execute_faults w) (executed w)).

Definition get_engine : M engine :=
  λ w, match _engine w with
       | Some e => (Ok e, w)
       | None =>
           (a <- getenv "DB_URL";;
            b <- getenv "DATABASE_URL";;
            match or_else a b with
            | Some (String c u) =>
                let db_url := String c u in
                let db_url :=
                  if String.prefix "postgres://" db_url
                  then "postgresql://" +:+ drop_chars 11 db_url
                  else db_url in
                e <- create_engine db_url true;;
                _ <- set_engine e;;
                ret e
            | _ => raise (mkExn RuntimeError
                            "Missing DB_URL or DATABASE_URL environment variable.")
            end) w
       end.

(** *** The connection *)

(** [engine.connect()]; the [with] block gives the connection back on
    every way out, which leaves no trace in the model. *)
Definition connect (e : engine) : M engine :=
  λ w, match connect_fault w with
       | Some x => (Raise x, w)
       | None => (Ok e, w)
       end.

Definition unbound_parameter : exn :=
  mkExn OtherException "A value is required for bind parameter".

(** [conn.execute(text(sql), params)] followed by reading the first
    column of every row. The statement is logged when it is sent; the
    world then decides whether the call raises. *)
Definition execute (conn : engine) (st : statement) (ps : params) : M (list Z) :=
  λ w,
    let fault := match execute_faults w with f :: _ => f | [] => None end in
    let w' := mkWorld (environ w) (_engine w) (request w) (ns w) (create_engine_fault w)
                      (connect_fault w) (tail (execute_faults w))
                      (executed w ++ [(st, ps)]) in
    match fault with
    | Some e => (Raise e, w')
    | None =>
        match eval_statement (ns w) ps st with
        | Some rows => (Ok rows, w')
        | None => (Raise unbound_parameter, w')
        end
    end.

(** *** werkzeug and Flask *)

(** [MultiDict.get(key, default, type)]: the first value of the key,
    converted by [type]; the default when the key is missing or the
    conversion raises [ValueError] or [TypeError]. Without a [type] the
    conversion is [Ok]. *)
Definition multidict_get {A : Type} (d : list (string * string)) (key : string)
    (default : A) (type : string → outcome A) : outcome A :=
  match dict_get key d with
  | None => Ok default
  | Some rv =>
      match type rv with
      | Ok v => Ok v
      | Raise e => if caught_by [ValueError; TypeError] e then Ok default else Raise e
      end
  end.

(** [type=float]. *)
Definition float (s : string) : outcome number := obind (py_float s) (λ f, Ok (NFloat f)).

Definition get_request : M request_t := λ w, (Ok (request w), w).

(** [flask.abort(code, description=...)]. *)
Definition abort {A : Type} (code : Z) (description : string) : M A :=
  raise (mkExn (HTTPException code) description).

(** What a view returns: [jsonify(body), status]. *)
Record response : Type := mkResponse { body : pyval; status : Z }.

Definition jsonify (d : list (string * pyval)) (st : Z) : response :=
  mkResponse (PyDict d) st.

Definition id_list (ids : list Z) : pyval := PyList ((λ i, PyNum (NInt i)) <$> ids).

Definition len (ids : list Z) : pyval := PyNum (NInt (Z.of_nat (length ids))).

(** *** [dissociate_by_term] *)

Definition sql_terms : statement :=
  mkStatement (SelectTerm "term_a") (SelectTerm "term_b") 250.

Definition dissociate_by_term (term_a term_b : string) : M response :=
  try_except
    (engine <- get_engine;;
     conn <- connect engine;;
     study_ids <- execute conn sql_terms
                    [("term_a", BStr term_a); ("term_b", BStr term_b)];;
     ret (jsonify [("term_a", PyStr term_a);
                   ("term_b", PyStr term_b);
                   ("study_ids", id_list study_ids)] 200))
    [(Exception,
      λ e, ret (jsonify [("error", PyStr ("Database error: " +:+ exn_str e))] 500))].

(** *** [dissociate_by_location] *)

Definition sql_locations : statement :=
  mkStatement (SelectNear "x1" "y1" "z1" "radius") (SelectNear "x2" "y2" "z2" "radius") 250.

(** The parameters of one direction: the studies near [p1] and not
    near [p2]. *)
Definition location_params (p1 p2 : coords) (radius : number) : params :=
  let '(x1, y1, z1) := p1 in
  let '(x2, y2, z2) := p2 in
  [("x1", BNum (NFloat x1)); ("y1", BNum (NFloat y1)); ("z1", BNum (NFloat z1));
   ("x2", BNum (NFloat x2)); ("y2", BNum (NFloat y2)); ("z2", BNum (NFloat z2));
   ("radius", BNum radius)].

Definition invalid_coordinates : string :=
  "Invalid coordinate format. Use x_y_z (e.g., '0_-52_26').".

Definition direction (from not : string) (study_ids : list Z) : pyval :=
  PyDict [("from", PyStr from); ("not", PyStr not);
          ("count", len study_ids); ("study_ids", id_list study_ids)].

Definition dissociate_by_location (coords_a coords_b : string) : M response :=
  req <- get_request;;
  radius <- lift (multidict_get (args req) "radius" (NInt 10) float);;
  flag <- lift (multidict_get (args req) "bidirectional" "false" Ok);;
  let bidirectional := String.eqb (lower flag) "true" in
  p_a <- lift (parse_coords coords_a);;
  p_b <- lift (parse_coords coords_b);;
  match p_a, p_b with
  | Some p_a, Some p_b =>
      try_except
        (engine <- get_engine;;
         conn <- connect engine;;
         study_ids_ab <- execute conn sql_locations (location_params p_a p_b radius);;
         let payload :=
           [("coords_a", PyStr coords_a);
            ("coords_b", PyStr coords_b);
            ("radius", PyNum radius);
            ("direction_A_minus_B", direction coords_a coords_b study_ids_ab)] in
         payload <-
           (if bidirectional then
              study_ids_ba <- execute conn sql_locations (location_params p_b p_a radius);;
              ret (dict_set "direction_B_minus_A"
                     (direction coords_b coords_a study_ids_ba) payload)
            else ret payload);;
         ret (jsonify payload 200))
        [(caught_by [OperationalError],
          λ e, ret (jsonify [("error",
                              PyStr ("Database connection failed: " +:+ exn_str e))] 500));
         (Exception,
          λ e, ret (jsonify [("error", PyStr ("Query failed: " +:+ exn_str e))] 500))]
  | _, _ => abort 400 invalid_coordinates
  end.
End Storage.

(** ** Reading a response *)

Section Observations.
Context `{PostGIS}.

(** [v[k]] for a [dict] value. *)
Definition field (k : string) (v : pyval) : option pyval :=
  match v with
  | PyDict d => dict_get k d
  | _ => None
  end.

Definition has_key (k : string) (v : pyval) : bool :=
  match field k v with
  | Some _ => true
  | None => false
  end.

(** A JSON list of integers, read back. *)
Fixpoint as_ids_list (l : list pyval) : option (list Z) :=
  match l with
  | [] => Some []
  | PyNum (NInt i) :: l' => cons i <$> as_ids_list l'
  | _ => None
  end.

Definition as_ids (v : pyval) : option (list Z) :=
  match v with
  | PyList l => as_ids_list l
  | _ => None
  end.

(** The response of a view that returned one, and the world after. *)
Definition returned {A : Type} (r : outcome A * world) : option A :=
  match fst r with
  | Ok a => Some a
  | Raise _ => None
  end.

Definition after {A : Type} (r : outcome A * world) : world := snd r.

(** The [study_ids] of a term response, and of one direction of a
    location response. *)
Definition term_study_ids (r : response) : option (list Z) :=
  field "study_ids" (body r) ≫= as_ids.

Definition direction_study_ids (dir : string) (r : response) : option (list Z) :=
  (field dir (body r) ≫= field "study_ids") ≫= as_ids.

(** The error response of a view: one key, status 500. *)
Definition error_response (message : string) : response :=
  jsonify [("error", PyStr message)] 500.

(** The successful response of the term view. *)
Definition term_response (term_a term_b : string) (study_ids : list Z) : response :=
  jsonify [("term_a", PyStr term_a); ("term_b", PyStr term_b);
           ("study_ids", id_list study_ids)] 200.

(** The successful response of the location view, with the second
    direction when there is one. *)
Definition location_response (coords_a coords_b : string) (radius : number)
    (ab : list Z) (ba : option (list Z)) : response :=
  jsonify ([("coords_a", PyStr coords_a); ("coords_b", PyStr coords_b);
            ("radius", PyNum radius);
            ("direction_A_minus_B", direction coords_a coords_b ab)]
           ++ match ba with
              | Some ids => [("direction_B_minus_A", direction coords_b coords_a ids)]
              | None => []
              end) 200.

(** What each view sends: the statement and its parameters. *)
Definition term_query (term_a term_b : string) : statement * params :=
  (sql_terms, [("term_a", BStr term_a); ("term_b", BStr term_b)]).

Definition location_query (p1 p2 : coords) (radius : number) : statement * params :=
  (sql_locations, location_params p1 p2 radius).

(** The message of the location view for an exception. *)
Definition location_error (e : exn) : string :=
  (if caught_by [OperationalError] e
   then "Database connection failed: " else "Query failed: ") +:+ exn_str e.

(** *** Conditions on the world *)

(** The database URL that [get_engine] reads from the environment. *)
Definition configured_url (w : world) : option string :=
  or_else (dict_get "DB_URL" (environ w)) (dict_get "DATABASE_URL" (environ w)).

(** An engine is cached or can be made, and a connection can be had. *)
Definition engine_ready (w : world) : bool :=
  match _engine w with
  | Some _ => true
  | None =>
      truthy (configured_url w)
      && match create_engine_fault w with Some _ => false | None => true end
  end
  && match connect_fault w with Some _ => false | None => true end.

(** The engine a ready world hands out: the cached one, or a new one
    for the configured URL with the old scheme name replaced. *)
Definition the_engine (w : world) : engine :=
  match _engine w with
  | Some e => e
  | None =>
      let db_url := default "" (configured_url w) in
      mkEngine (if String.prefix "postgres://" db_url
                then "postgresql://" +:+ drop_chars 11 db_url
                else db_url) true
  end.

(** The world once the engine is cached and the statements [qs] have
    been sent. *)
Definition world_after (qs : list (statement * params)) (w : world) : world :=
  mkWorld (environ w) (Some (the_engine w)) (request w) (ns w) (create_engine_fault w)
          (connect_fault w) (drop (length qs) (execute_faults w)) (executed w ++ qs).

(** What the world has in store for the [k]-th statement from now. *)
Definition fault_at (k : nat) (w : world) : option exn :=
  match execute_faults w !! k with
  | Some f => f
  | None => None
  end.

(** The radius and the flag a location request carries. *)
Definition request_radius (w : world) : outcome number :=
  multidict_get (args (request w)) "radius" (NInt 10) float.

Definition request_bidirectional (w : world) : bool :=
  match multidict_get (args (request w)) "bidirectional" "false" Ok with
  | Ok flag => String.eqb (lower flag) "true"
  | Raise _ => false
  end.

(** The value of a number as the database reads it for a [float8]
    parameter. *)
Definition number_value (n : number) : spec_float :=
  match n with
  | NInt z => float_of_Z z
  | NFloat f => f
  end.

(** *** The words of the specification *)

(** A study has a row tagged [t]. *)
Definition has_term (db : database) (t : string) (id : Z) : Prop :=
  ∃ row, row ∈ annotations_terms db ∧ at_study_id row = id ∧ at_term row = t.

(** A study has a row within [r] of the point [p]. *)
Definition is_near (db : database) (p : coords) (r : number) (id : Z) : Prop :=
  ∃ row, row ∈ coordinates db ∧ c_study_id row = id ∧
    ST_DWithin (c_geom row)
      (ST_SetSRID (ST_MakePoint (NFloat p.1.1) (NFloat p.1.2) (NFloat p.2)) 4326) r = true.

(** The untruncated answers of the two queries. *)
Definition term_difference (db : database) (term_a term_b : string) : list Z :=
  sql_except (tagged db term_a) (tagged db term_b).

Definition near_point (db : database) (p : coords) (r : number) : list Z :=
  near db (NFloat p.1.1) (NFloat p.1.2) (NFloat p.2) r.

Definition location_difference (db : database) (p_a p_b : coords) (r : number) : list Z :=
  sql_except (near_point db p_a r) (near_point db p_b r).

(** A value that is [true] when case is ignored: one of the sixteen
    spellings. *)
Definition spells_true (v : string) : Prop :=
  ∃ c1 c2 c3 c4 : ascii,
    v = String c1 (String c2 (String c3 (String c4 EmptyString))) ∧
    (c1 = "t" ∨ c1 = "T")%char ∧ (c2 = "r" ∨ c2 = "R")%char ∧
    (c3 = "u" ∨ c3 = "U")%char ∧ (c4 = "e" ∨ c4 = "E")%char.

(** The parts of a token put together again, and whether a character
    occurs in a string. *)
Fixpoint join (sep : ascii) (parts : list string) : string :=
  match parts with
  | [] => EmptyString
  | [p] => p
  | p :: ps => p +:+ String sep (join sep ps)
  end.

Fixpoint contains (c : ascii) (s : string) : bool :=
  match s with
  | EmptyString => false
  | String c' s' => Ascii.eqb c c' || contains c s'
  end.

(** A token with the wrong number of parts, or with a part that is not
    a number. *)
Definition malformed (token : string) : Prop :=
  length (split "_" token) ≠ 3%nat
  ∨ ∃ part e, part ∈ split "_" token ∧ py_float part = Raise e.

(** A part that parses as a finite number, in the widest reading: what
    [float] accepts with a finite value. *)
Definition finite_decimal (part : string) : Prop :=
  ∃ f, py_float part = Ok f ∧ is_finite f = true.

(** The characters of a signed decimal numeral. *)
Definition plain_char (c : ascii) : bool :=
  is_digit c || Ascii.eqb c "." || Ascii.eqb c "+" || Ascii.eqb c "-".

Fixpoint all_plain (s : string) : bool :=
  match s with
  | EmptyString => true
  | String c s' => plain_char c && all_plain s'
  end.

(** A part of a coordinate token written as the specification describes
    it: an optional sign, digits, and an optional point followed by
    digits. *)
Fixpoint all_digits (s : string) : bool :=
  match s with
  | EmptyString => true
  | String c s' => is_digit c && all_digits s'
  end.

Fixpoint digits_then_fraction (s : string) : bool :=
  match s with
  | EmptyString => true
  | String c s' =>
      if is_digit c then digits_then_fraction s'
      else Ascii.eqb c "." && all_digits s'
  end.

Definition decimal_numeral (s : string) : bool :=
  match snd (take_sign s) with
  | String c s' => is_digit c && digits_then_fraction s'
  | EmptyString => false
  end.
End Observations.

(** ** [test_db] *)

(** A value of a column: [None] is SQL NULL. A row as [.mappings()] gives
    it: the columns by name. *)
Definition cell : Type := option pyval.

Definition row_mapping : Type := list (string * cell).

(** What the database answers to a statement given as text. The
    statements of [test_db] read tables and columns that [database] does
    not hold, and spatial accessors; their answers belong to the
    database, and the development holds for every such answer. *)
Class Inspection `{PostGIS} : Type := {
  answer : string → database → list row_mapping;
}.

(** The values of the payload of [test_db]. *)
Inductive item : Type :=
  | IBool (b : bool)
  | ICell (c : cell)
  | IRows (rows : list row_mapping)
  | IStr (s : string).

(** What [test_db] returns: [jsonify(payload), status]. *)
Record report : Type := mkReport { report_body : list (string * item); report_status : Z }.

Section Diagnostics.
Context `{Inspection}.

(** The local variable [payload], a dictionary that the [try] block
    fills and the handler still sees, and the texts of the statements sent
    so far, the latest last. *)
Record frame : Type := mkFrame { payload : list (string * item); sent : list string }.

Definition fresh : frame := mkFrame [] [].

(** A view with the local dictionary as part of its state. *)
Definition P (A : Type) : Type := frame → world → outcome A * frame * world.

Definition retP {A : Type} (a : A) : P A := λ f w, (Ok a, f, w).

Definition bindP {A B : Type} (m : P A) (k : A → P B) : P B :=
  λ f w, match m f w with
         | (Ok a, f', w') => k a f' w'
         | (Raise e, f', w') => (Raise e, f', w')
         end.

Definition liftP {A : Type} (m : M A) : P A :=
  λ f w, match m w with (o, w') => (o, f, w') end.

(** [payload = d], [payload[key] = v] and reading [payload]. *)
Definition new_payload (d : list (string * item)) : P unit :=
  λ f w, (Ok tt, mkFrame d (sent f), w).

Definition set_item (key : string) (v : item) : P unit :=
  λ f w, (Ok tt, mkFrame (dict_set key v (payload f)) (sent f), w).

Definition get_payload : P (list (string * item)) := λ f w, (Ok (payload f), f, w).

(** [try: body] with the one clause [except Exception as e]. *)
Definition try_except_P {A : Type} (body : P A) (handler : exn → P A) : P A :=
  λ f w, match body f w with
         | (Ok a, f', w') => (Ok a, f', w')
         | (Raise e, f', w') => handler e f' w'
         end.

(** [conn.execute(text(sql))]: the text is sent, and the world decides
    whether the call raises, as for [execute]. *)
Definition execute_text (conn : engine) (sql : string) : P (list row_mapping) :=
  λ f w,
    let w' := mkWorld (environ w) (_engine w) (request w) (ns w) (create_engine_fault w)
                      (connect_fault w) (tail (execute_faults w)) (executed w) in
    let f' := mkFrame (payload f) (sent f ++ [sql]) in
    match fault_at 0 w with
    | Some e => (Raise e, f', w')
    | None => (Ok (answer sql (ns w)), f', w')
    end.

(** [.scalar()]: the first column of the first row, [None] without a
    row. *)
Definition scalar (rows : list row_mapping) : cell :=
  match rows with
  | ((_, v) :: _) :: _ => v
  | _ => None
  end.

Notation "x <-- m ;; k" := (bindP m (λ x, k))
  (at level 100, m at next level, right associativity).

Definition test_db : P report :=
  _ <-- new_payload [("ok", IBool false)];;
  try_except_P
    (engine <-- liftP get_engine;;
     conn <-- liftP (connect engine);;
     rows <-- execute_text conn "SELECT COUNT(*) FROM ns.coordinates";;
     _ <-- set_item "coordinates_count" (ICell (scalar rows));;
     rows <-- execute_text conn "SELECT COUNT(*) FROM ns.metadata";;
     _ <-- set_item "metadata_count" (ICell (scalar rows));;
     rows <-- execute_text conn "SELECT COUNT(*) FROM ns.annotations_terms";;
     _ <-- set_item "annotations_terms_count" (ICell (scalar rows));;
     rows <-- execute_text conn
       "SELECT study_id, ST_X(geom) AS x, ST_Y(geom) AS y, ST_Z(geom) AS z FROM ns.coordinates LIMIT 3";;
     _ <-- set_item "coordinates_sample" (IRows rows);;
     rows <-- execute_text conn "SELECT study_id, title, year FROM ns.metadata LIMIT 3";;
     _ <-- set_item "metadata_sample" (IRows rows);;
     rows <-- execute_text conn
       "SELECT study_id, contrast_id, term, weight FROM ns.annotations_terms LIMIT 3";;
     _ <-- set_item "annotations_terms_sample" (IRows rows);;
     _ <-- set_item "ok" (IBool true);;
     payload <-- get_payload;;
     retP (mkReport payload 200))
    (λ e,
       _ <-- set_item "error" (IStr (exn_str e));;
       payload <-- get_payload;;
       retP (mkReport payload 500)).

(** *** Describing a run of [test_db] *)

(** The six statements in the order of the source: the key each fills,
    its text, and whether [.scalar()] reads it. *)
Definition inspection_plan : list (string * string * bool) :=
  [("coordinates_count", "SELECT COUNT(*) FROM ns.coordinates", true);
   ("metadata_count", "SELECT COUNT(*) FROM ns.metadata", true);
   ("annotations_terms_count", "SELECT COUNT(*) FROM ns.annotations_terms", true);
   ("coordinates_sample",
    "SELECT study_id, ST_X(geom) AS x, ST_Y(geom) AS y, ST_Z(geom) AS z FROM ns.coordinates LIMIT 3",
    false);
   ("metadata_sample", "SELECT study_id, title, year FROM ns.metadata LIMIT 3", false);
   ("annotations_terms_sample",
    "SELECT study_id, contrast_id, term, weight FROM ns.annotations_terms LIMIT 3", false)].

Definition planned_text (p : string * string * bool) : string := p.1.2.

Definition planned_item (db : database) (p : string * string * bool) : string * item :=
  (p.1.1, if p.2 then ICell (scalar (answer p.1.2 db)) else IRows (answer p.1.2 db)).

(** The first of the next [n] statements, counted from the [k]-th, that
    the world lets fail, with its exception. *)
Fixpoint first_fault_from (k n : nat) (w : world) : option (nat * exn) :=
  match n with
  | O => None
  | S n' =>
      match fault_at k w with
      | Some e => Some (k, e)
      | None => first_fault_from (S k) n' w
      end
  end.

(** The world once the engine is cached and [k] statements of [test_db]
    have been sent. *)
Definition world_inspected (k : nat) (w : world) : world :=
  mkWorld (environ w) (Some (the_engine w)) (request w) (ns w) (create_engine_fault w)
          (connect_fault w) (drop k (execute_faults w)) (executed w).
End Diagnostics.

(** ** More words for the properties *)

Section Vocabulary.
Context `{PostGIS}.


(** How often a character occurs in a string. *)
Fixpoint count_char (c : ascii) (s : string) : nat :=
  match s with
  | EmptyString => O
  | String c' s' => (if Ascii.eqb c' c then 1 else 0) + count_char c s'
  end.


(** An environment variable that is not set, or set to the empty
    string. *)
Definition unset (name : string) (w : world) : Prop :=
  dict_get name (environ w) = None ∨ dict_get name (environ w) = Some EmptyString.

(** The URL [v] stands for the URL [u] read from the environment: the
    old scheme name is replaced, and otherwise nothing changes. *)
Definition rewritten (u v : string) : Prop :=
  (∃ rest, u = "postgres://" +:+ rest ∧ v = "postgresql://" +:+ rest)
  ∨ (String.prefix "postgres://" u = false ∧ v = u).

(** Two worlds that differ at most in the cached engine. *)
Definition same_but_engine (w w' : world) : Prop :=
  environ w' = environ w ∧ request w' = request w ∧ ns w' = ns w
  ∧ create_engine_fault w' = create_engine_fault w ∧ connect_fault w' = connect_fault w
  ∧ execute_faults w' = execute_faults w ∧ executed w' = executed w.

(** One block of a location response, read field by field. *)
Definition block_field (dir k : string) (r : response) : option pyval :=
  field dir (body r) ≫= field k.

(** The configuration error of [get_engine]. *)
Definition missing_url : exn :=
  mkExn RuntimeError "Missing DB_URL or DATABASE_URL environment variable.".
End Vocabulary.

(** ** A concrete corpus *)

(** A database whose geometries are points in the plane of the first two
    coordinates, compared by their squared distance in binary64. *)
Definition plane_within (g p : spec_float * spec_float) (r : number) : bool :=
  let dx := SFsub prec emax g.1 p.1 in
  let dy := SFsub prec emax g.2 p.2 in
  let d2 := SFadd prec emax (SFmul prec emax dx dx) (SFmul prec emax dy dy) in
  let rv := number_value r in
  SFleb (float_of_Z 0) rv && SFleb d2 (SFmul prec emax rv rv).

#[local] Instance plane : PostGIS := {|
  geometry := spec_float * spec_float;
  ST_MakePoint := λ x y z, (number_value x, number_value y);
  ST_SetSRID := λ g srid, g;
  ST_DWithin := plane_within;
|}.

Definition at_origin (id : Z) : coordinates_row := mkCoordinate id (float_of_Z 0, float_of_Z 0).

Definition far_away (id : Z) : coordinates_row :=
  mkCoordinate id (float_of_Z 100, float_of_Z 100).

(** Studies 1, 2, 3 are tagged [fear], studies 2 and 3 [reward]; study 1
    has an activation at the origin, study 2 one at the origin and one
    at (100, 100), study 3 one at (100, 100). *)
Definition corpus : database :=
  mkDatabase
    [mkAnnotation 1 "fear"; mkAnnotation 2 "fear"; mkAnnotation 3 "fear";
     mkAnnotation 2 "reward"; mkAnnotation 3 "reward"; mkAnnotation 1 "Fear"]
    [at_origin 1; at_origin 2; far_away 2; far_away 3].

(** A process with the URL configured, no engine yet, and no fault in
    store. *)
Definition quiet (rq : list (string * string)) (db : database) : world :=
  mkWorld [("DB_URL", "postgres://localhost/ns")] None (mkRequest rq) db None None [] [].

(** The same process when the statements meet the given faults. *)
Definition faulty (rq : list (string * string)) (db : database)
    (faults : list (option exn)) : world :=
  mkWorld [("DB_URL", "postgres://localhost/ns")] None (mkRequest rq) db None None faults [].

(** A corpus of [n] studies, numbered from 1 in scan order, each tagged
    [t]. *)
Definition many_tagged (n : nat) (t : string) : database :=
  mkDatabase ((λ i, mkAnnotation (Z.of_nat i) t) <$> seq 1 n) [].

Definition timeout_error : exn := mkExn OtherException "canceling statement due to statement timeout".

Definition connection_lost : exn := mkExn OperationalError "server closed the connection unexpectedly".

(** A database that answers the three counts of [test_db] from its
    tables (it has no metadata) and gives no sample rows. *)
Definition count_row (n : nat) : list row_mapping :=
  [[("count", Some (PyNum (NInt (Z.of_nat n))))]].

#[local] Instance census : Inspection := {|
  answer := λ sql db,
    if String.eqb sql "SELECT COUNT(*) FROM ns.coordinates"
    then count_row (length (coordinates db))
    else if String.eqb sql "SELECT COUNT(*) FROM ns.annotations_terms"
    then count_row (length (annotations_terms db))
    else if String.eqb sql "SELECT COUNT(*) FROM ns.metadata"
    then count_row 0
    else [];
|}.

(** A process without a database URL. *)
Definition unconfigured (rq : list (string * string)) (db : database) : world :=
  mkWorld [("DB_URL", "")] None (mkRequest rq) db None None [] [].

(** * Properties *)

Section Properties.
Context `{PostGIS}.

(** ** The statements of the two views *)

Lemma eval_sql_terms (db : database) (term_a term_b : string) :
  eval_statement db [("term_a", BStr term_a); ("term_b", BStr term_b)] sql_terms
  = Some (take 250 (term_difference db term_a term_b)).
Proof. reflexivity. Qed.

Lemma eval_sql_locations (db : database) (p1 p2 : coords) (r : number) :
  eval_statement db (location_params p1 p2 r) sql_locations
  = Some (take 250 (location_difference db p1 p2 r)).
Proof. destruct p1 as [[x1 y1] z1], p2 as [[x2 y2] z2]. reflexivity. Qed.

Lemma elem_of_tagged (db : database) (t : string) (id : Z) :
  id ∈ tagged db t ↔ has_term db t id.
Proof.
  unfold tagged, has_term. rewrite list_elem_of_fmap. split.
  - intros (row & -> & Hrow). apply list_elem_of_filter in Hrow as [Ht Hin]. eauto.
  - intros (row & Hin & <- & Ht). exists row. split; [done|].
    apply list_elem_of_filter. done.
Qed.

Lemma elem_of_near_point (db : database) (p : coords) (r : number) (id : Z) :
  id ∈ near_point db p r ↔ is_near db p r id.
Proof.
  unfold near_point, near, is_near. rewrite list_elem_of_fmap. split.
  - intros (row & -> & Hrow). apply list_elem_of_filter in Hrow as [Ht Hin]. eauto.
  - intros (row & Hin & <- & Ht). exists row. split; [done|].
    apply list_elem_of_filter. done.
Qed.

Lemma elem_of_sql_except (l r : list Z) (id : Z) :
  id ∈ sql_except l r ↔ id ∈ l ∧ id ∉ r.
Proof. unfold sql_except. by rewrite elem_of_remove_dups, list_elem_of_difference. Qed.

Lemma NoDup_sql_except (l r : list Z) : NoDup (sql_except l r).
Proof. apply NoDup_remove_dups. Qed.

Lemma sql_except_self (l : list Z) : sql_except l l = [].
Proof.
  apply elem_of_nil_inv. intros id Hid.
  apply elem_of_sql_except in Hid as [Hin Hout]. done.
Qed.

Lemma length_take_bound {A : Type} (n : nat) (l : list A) : (length (take n l) ≤ n)%nat.
Proof. rewrite length_take. lia. Qed.

(** ** Reading back what a view wrote *)

Lemma run_eq {A : Type} (r : outcome A * world) (a : A) :
  fst r = Ok a → r = (Ok a, after r).
Proof. destruct r as [o w']. simpl. by intros ->. Qed.

Lemma as_ids_id_list (ids : list Z) : as_ids (id_list ids) = Some ids.
Proof.
  unfold as_ids, id_list. induction ids as [|i ids IH]; [done|].
  simpl. unfold fmap in IH. by rewrite IH.
Qed.

(** ** The engine *)

Lemma get_engine_ready (w : world) :
  engine_ready w = true →
  get_engine w = (Ok (the_engine w), world_after [] w).
Proof.
  unfold engine_ready, get_engine.
  destruct w as [env eng rq db cef cf faults log]; simpl.
  destruct eng as [e|].
  { intros _. unfold world_after; simpl. by rewrite app_nil_r. }
  unfold world_after, the_engine, configured_url; simpl.
  unfold bind, getenv, create_engine, set_engine, ret; simpl.
  destruct (or_else (dict_get "DB_URL" env) (dict_get "DATABASE_URL" env)) as [[|c u]|];
    simpl; try done.
  destruct cef; simpl; [done|]. intros _. by rewrite app_nil_r.
Qed.

Lemma bind_assoc {A B C : Type} (m : M A) (f : A → M B) (g : B → M C) (w : world) :
  bind m (λ a, bind (f a) g) w = bind (bind m f) g w.
Proof. unfold bind. destruct (m w) as [[a|e] w']; [|done]. done. Qed.

(** Getting the engine and a connection: in a ready world both succeed;
    in any other world one of them raises and nothing has been sent. *)
Lemma acquire_spec (w : world) :
  match bind get_engine connect w with
  | (Ok e, w') => engine_ready w = true ∧ e = the_engine w ∧ w' = world_after [] w
  | (Raise x, w') => engine_ready w = false ∧ executed w' = executed w
  end.
Proof.
  destruct (engine_ready w) eqn:Hready.
  - unfold bind. rewrite (get_engine_ready w Hready).
    unfold connect, world_after; simpl.
    unfold engine_ready in Hready. apply andb_prop in Hready as [_ Hc].
    destruct (connect_fault w); [done|]. done.
  - unfold bind, get_engine, engine_ready, configured_url in *.
    destruct w as [env eng rq db cef cf faults log]; simpl in *.
    destruct eng as [e|]; simpl in *.
    { unfold connect; simpl. destruct cf; [done|discriminate]. }
    unfold bind, getenv, create_engine, set_engine, ret, raise; simpl.
    destruct (or_else (dict_get "DB_URL" env) (dict_get "DATABASE_URL" env)) as [[|c u]|];
      simpl in *; try done.
    destruct cef; simpl in *; [done|].
    unfold connect; simpl. destruct cf; [done|discriminate].
Qed.

Lemma drop_S_tail {A : Type} (n : nat) (l : list A) : drop (S n) l = tail (drop n l).
Proof.
  revert l. induction n as [|n IH]; intros [|a l]; simpl; done.
Qed.

Lemma execute_after (qs : list (statement * params)) (w : world) (conn : engine)
    (st : statement) (ps : params) :
  execute conn st ps (world_after qs w)
  = (match fault_at (length qs) w with
     | Some e => Raise e
     | None =>
         match eval_statement (ns w) ps st with
         | Some rows => Ok rows
         | None => Raise unbound_parameter
         end
     end, world_after (qs ++ [(st, ps)]) w).
Proof.
  unfold execute, world_after, fault_at; simpl.
  rewrite <- app_assoc, length_app; simpl.
  replace (tail (drop (length qs) (execute_faults w)))
    with (drop (length qs + 1) (execute_faults w)).
  2: { rewrite Nat.add_1_r. apply drop_S_tail. }
  destruct (drop (length qs) (execute_faults w)) as [|f fs] eqn:Hd; simpl.
  - assert (execute_faults w !! length qs = None) as ->.
    { apply lookup_ge_None. by apply drop_nil_inv. }
    by destruct (eval_statement (ns w) ps st).
  - assert (execute_faults w !! length qs = Some f) as ->.
    { rewrite <- (Nat.add_0_r (length qs)), <- lookup_drop, Hd. done. }
    destruct f; [done|]. by destruct (eval_statement (ns w) ps st).
Qed.

(** ** The term view, step by step *)

Lemma dissociate_by_term_ready (w : world) (term_a term_b : string) :
  engine_ready w = true →
  dissociate_by_term term_a term_b w
  = (Ok (match fault_at 0 w with
         | Some e => error_response ("Database error: " +:+ exn_str e)
         | None => term_response term_a term_b
                     (take 250 (term_difference (ns w) term_a term_b))
         end),
     world_after [term_query term_a term_b] w).
Proof.
  intros Hready. unfold dissociate_by_term, try_except.
  rewrite bind_assoc. unfold bind at 1.
  pose proof (acquire_spec w) as Hacq.
  destruct (bind get_engine connect w) as [[conn|x] w1].
  2: { destruct Hacq as [Hno _]. congruence. }
  destruct Hacq as (_ & -> & ->).
  unfold bind. rewrite (execute_after [] w).
  change (length []) with 0%nat.
  destruct (fault_at 0 w) as [e|]; [done|].
  rewrite eval_sql_terms. done.
Qed.

Lemma dissociate_by_term_unready (w : world) (term_a term_b : string) :
  engine_ready w = false →
  ∃ x w', dissociate_by_term term_a term_b w
          = (Ok (error_response ("Database error: " +:+ exn_str x)), w')
          ∧ executed w' = executed w.
Proof.
  intros Hready. unfold dissociate_by_term, try_except.
  rewrite bind_assoc. unfold bind at 1.
  pose proof (acquire_spec w) as Hacq.
  destruct (bind get_engine connect w) as [[conn|x] w1].
  { destruct Hacq as [Hyes _]. congruence. }
  destruct Hacq as [_ Hlog]. exists x, w1. done.
Qed.

(** ** The location view, step by step *)

Lemma py_float_raises (s : string) (e : exn) :
  py_float s = Raise e → e = could_not_convert.
Proof.
  unfold py_float.
  destruct (_ ≫= float_from_string_inner); [discriminate|]. by intros [= <-].
Qed.

Lemma request_radius_total (w : world) : ∃ r, request_radius w = Ok r.
Proof.
  unfold request_radius, multidict_get, float.
  destruct (dict_get "radius" (args (request w))) as [rv|]; [|eauto].
  destruct (py_float rv) as [f|e] eqn:Hf; simpl; [eauto|].
  apply py_float_raises in Hf as ->. simpl. eauto.
Qed.

Lemma flag_total (w : world) :
  multidict_get (args (request w)) "bidirectional" "false" Ok
  = Ok (default "false" (dict_get "bidirectional" (args (request w)))).
Proof. unfold multidict_get. by destruct (dict_get _ _). Qed.

Lemma request_bidirectional_eq (w : world) :
  request_bidirectional w
  = String.eqb (lower (default "false" (dict_get "bidirectional" (args (request w))))) "true".
Proof. unfold request_bidirectional. by rewrite flag_total. Qed.

Ltac enter_location Ha Hb Hr :=
  unfold dissociate_by_location;
  unfold bind at 1; unfold get_request at 1;
  unfold bind at 1; unfold lift at 1;
  match goal with w : world |- _ => fold (request_radius w) end; rewrite Hr;
  unfold bind at 1; unfold lift at 1; rewrite flag_total, <- request_bidirectional_eq;
  unfold bind at 1; unfold lift at 1; rewrite Ha;
  unfold bind at 1; unfold lift at 1; rewrite Hb;
  unfold try_except; rewrite bind_assoc; unfold bind at 1.

Lemma handle_location (x : exn) (w : world) :
  handle
    [(caught_by [OperationalError],
      λ e, ret (jsonify [("error", PyStr ("Database connection failed: " +:+ exn_str e))]
                  500));
     (Exception,
      λ e, ret (jsonify [("error", PyStr ("Query failed: " +:+ exn_str e))] 500))] x w
  = (Ok (error_response (location_error x)), w).
Proof.
  cbn [handle]. unfold location_error, error_response, ret, Exception.
  by destruct (caught_by [OperationalError] x).
Qed.

Lemma dissociate_by_location_ready (w : world) (coords_a coords_b : string)
    (p_a p_b : coords) (r : number) :
  parse_coords coords_a = Ok (Some p_a) →
  parse_coords coords_b = Ok (Some p_b) →
  request_radius w = Ok r →
  engine_ready w = true →
  dissociate_by_location coords_a coords_b w
  = match fault_at 0 w with
    | Some e => (Ok (error_response (location_error e)),
                 world_after [location_query p_a p_b r] w)
    | None =>
        let ab := take 250 (location_difference (ns w) p_a p_b r) in
        if request_bidirectional w then
          (Ok (match fault_at 1 w with
               | Some e => error_response (location_error e)
               | None =>
                   location_response coords_a coords_b r ab
                     (Some (take 250 (location_difference (ns w) p_b p_a r)))
               end),
           world_after [location_query p_a p_b r; location_query p_b p_a r] w)
        else (Ok (location_response coords_a coords_b r ab None),
              world_after [location_query p_a p_b r] w)
    end.
Proof.
  intros Ha Hb Hr Hready. enter_location Ha Hb Hr.
  pose proof (acquire_spec w) as Hacq.
  destruct (bind get_engine connect w) as [[conn|x] w1].
  2: { destruct Hacq as [Hno _]. congruence. }
  destruct Hacq as (_ & -> & ->).
  unfold bind at 1. rewrite (execute_after [] w).
  change (length []) with 0%nat.
  destruct (fault_at 0 w) as [e|]; [apply handle_location|].
  rewrite eval_sql_locations. cbv zeta.
  destruct (request_bidirectional w).
  - unfold bind at 1. unfold bind at 1.
    rewrite (execute_after [location_query p_a p_b r] w).
    change (length [_]) with 1%nat.
    destruct (fault_at 1 w) as [e|]; [apply handle_location|].
    rewrite eval_sql_locations. done.
  - done.
Qed.

Lemma dissociate_by_location_unready (w : world) (coords_a coords_b : string)
    (p_a p_b : coords) :
  parse_coords coords_a = Ok (Some p_a) →
  parse_coords coords_b = Ok (Some p_b) →
  engine_ready w = false →
  ∃ x w', dissociate_by_location coords_a coords_b w
          = (Ok (error_response (location_error x)), w')
          ∧ executed w' = executed w.
Proof.
  intros Ha Hb Hready. destruct (request_radius_total w) as [r Hr].
  enter_location Ha Hb Hr.
  pose proof (acquire_spec w) as Hacq.
  destruct (bind get_engine connect w) as [[conn|x] w1].
  { destruct Hacq as [Hyes _]. congruence. }
  destruct Hacq as [_ Hlog]. exists x, w1. split; [apply handle_location|done].
Qed.

Lemma parse_coords_total (s : string) : ∃ r, parse_coords s = Ok r.
Proof.
  unfold parse_coords.
  destruct (parse_coords_try s) as [[t|]|e] eqn:Htry; [eauto|eauto|].
  assert (e = could_not_convert) as ->; [|simpl; eauto].
  unfold parse_coords_try in Htry.
  destruct (comprehension py_float (split "_" s)) as [parts|e'] eqn:Hc; simpl in Htry.
  { by destruct parts as [|x [|y [|z [|? ?]]]]. }
  injection Htry as <-.
  revert e' Hc. generalize (split "_" s) as l.
  induction l as [|p l IH]; intros e Hc; simpl in Hc; [done|].
  destruct (py_float p) as [f|e1] eqn:Hp; simpl in Hc.
  - destruct (comprehension py_float l) as [fs|e2]; simpl in Hc; [done|].
    injection Hc as <-. by apply IH.
  - injection Hc as <-. by apply py_float_raises in Hp.
Qed.

Lemma dissociate_by_location_invalid (w : world) (coords_a coords_b : string) :
  parse_coords coords_a = Ok None ∨ parse_coords coords_b = Ok None →
  dissociate_by_location coords_a coords_b w
  = (Raise (mkExn (HTTPException 400) invalid_coordinates), w).
Proof.
  intros Hbad. destruct (request_radius_total w) as [r Hr].
  unfold dissociate_by_location.
  unfold bind at 1; unfold get_request at 1.
  unfold bind at 1; unfold lift at 1. fold (request_radius w). rewrite Hr.
  unfold bind at 1; unfold lift at 1. rewrite flag_total.
  unfold bind at 1; unfold lift at 1.
  destruct (parse_coords_total coords_a) as [ra Ha], (parse_coords_total coords_b) as [rb Hb].
  rewrite Ha. unfold bind at 1; unfold lift at 1. rewrite Hb.
  destruct Hbad as [Hbad|Hbad].
  - rewrite Ha in Hbad. injection Hbad as ->. done.
  - rewrite Hb in Hbad. injection Hbad as ->. by destruct ra.
Qed.

(** ** What the responses carry *)

Lemma term_response_ids (term_a term_b : string) (ids : list Z) :
  term_study_ids (term_response term_a term_b ids) = Some ids.
Proof. unfold term_study_ids; simpl. apply as_ids_id_list. Qed.

Lemma location_response_ab (coords_a coords_b : string) (r : number)
    (ab : list Z) (ba : option (list Z)) :
  direction_study_ids "direction_A_minus_B" (location_response coords_a coords_b r ab ba)
  = Some ab.
Proof. unfold direction_study_ids; simpl. apply as_ids_id_list. Qed.

Lemma location_response_ba (coords_a coords_b : string) (r : number)
    (ab : list Z) (ba : option (list Z)) :
  direction_study_ids "direction_B_minus_A" (location_response coords_a coords_b r ab ba)
  = ba.
Proof.
  unfold direction_study_ids. destruct ba as [ids|]; simpl; [|done].
  apply as_ids_id_list.
Qed.

(** ** The term resolver *)

(** C1, as amended. In a ready world whose statement meets no fault,
    the term view answers with distinct study ids, each with a row
    tagged [term_a] (the very same string) and none tagged [term_b]:
    the first 250, in the order of the engine, of all such ids. So it
    answers with all of them when they are at most 250, and with 250 of
    them otherwise. *)
Theorem term_dissociation_up_to_cap (w : world) (term_a term_b : string) :
  engine_ready w = true →
  fault_at 0 w = None →
  ∃ ids all : list Z,
    dissociate_by_term term_a term_b w
    = (Ok (term_response term_a term_b ids), world_after [term_query term_a term_b] w)
    ∧ ids = take 250 all
    ∧ NoDup all
    ∧ (∀ id, id ∈ all ↔ has_term (ns w) term_a id ∧ ¬ has_term (ns w) term_b id)
    ∧ NoDup ids
    ∧ (∀ id, id ∈ ids → has_term (ns w) term_a id ∧ ¬ has_term (ns w) term_b id)
    ∧ ((length all ≤ 250)%nat →
       ∀ id, id ∈ ids ↔ has_term (ns w) term_a id ∧ ¬ has_term (ns w) term_b id)
    ∧ ((250 < length all)%nat → length ids = 250%nat).
Proof.
  intros Hready Hfault.
  exists (take 250 (term_difference (ns w) term_a term_b)),
         (term_difference (ns w) term_a term_b).
  assert (∀ id, id ∈ term_difference (ns w) term_a term_b
                ↔ has_term (ns w) term_a id ∧ ¬ has_term (ns w) term_b id) as Hall.
  { intros id. unfold term_difference.
    by rewrite elem_of_sql_except, !elem_of_tagged. }
  pose proof (NoDup_sql_except (tagged (ns w) term_a) (tagged (ns w) term_b)) as Hnd.
  fold (term_difference (ns w) term_a term_b) in Hnd.
  split_and!; try done.
  - rewrite (dissociate_by_term_ready w term_a term_b Hready), Hfault. done.
  - eapply sublist_NoDup; [exact Hnd|apply sublist_take].
  - intros id Hid. apply Hall. eapply elem_of_sublist; [exact Hid|apply sublist_take].
  - intros Hlen id. rewrite take_ge by done. apply Hall.
  - intros Hlen. rewrite length_take. lia.
Qed.

(** C2. Whatever the world and the input, a list of study ids in a
    response of either view has at most 250 entries, and it is the
    beginning of the answer of the engine, in the order of the engine.
    The term view always returns a response; the location view returns
    one or raises the 400 error. *)
Theorem dissociation_sets_at_most_250 (w : world) (term_a term_b coords_a coords_b : string) :
  (∃ resp w', dissociate_by_term term_a term_b w = (Ok resp, w')
     ∧ match term_study_ids resp with
       | Some ids =>
           (length ids ≤ 250)%nat ∧ ids = take 250 (term_difference (ns w) term_a term_b)
       | None => status resp = 500
       end)
  ∧ match dissociate_by_location coords_a coords_b w with
    | (Ok resp, _) =>
        match direction_study_ids "direction_A_minus_B" resp with
        | Some ids =>
            (length ids ≤ 250)%nat
            ∧ ∃ p_a p_b r, parse_coords coords_a = Ok (Some p_a)
                ∧ parse_coords coords_b = Ok (Some p_b) ∧ request_radius w = Ok r
                ∧ ids = take 250 (location_difference (ns w) p_a p_b r)
                ∧ match direction_study_ids "direction_B_minus_A" resp with
                  | Some ids' =>
                      (length ids' ≤ 250)%nat
                      ∧ ids' = take 250 (location_difference (ns w) p_b p_a r)
                  | None => request_bidirectional w = false
                  end
        | None =>
            status resp = 500 ∧ direction_study_ids "direction_B_minus_A" resp = None
        end
    | (Raise e, _) => exn_cls e = HTTPException 400
    end.
Proof.
  split.
  - destruct (engine_ready w) eqn:Hready.
    + rewrite (dissociate_by_term_ready w term_a term_b Hready).
      eexists _, _. split; [done|].
      destruct (fault_at 0 w); [done|].
      rewrite term_response_ids. split; [apply length_take_bound|done].
    + destruct (dissociate_by_term_unready w term_a term_b Hready) as (x & w' & -> & _).
      eexists _, _. split; [done|]. done.
  - destruct (parse_coords_total coords_a) as [[p_a|] Ha].
    2: { rewrite dissociate_by_location_invalid by eauto. done. }
    destruct (parse_coords_total coords_b) as [[p_b|] Hb].
    2: { rewrite dissociate_by_location_invalid by eauto. done. }
    destruct (request_radius_total w) as [r Hr].
    destruct (engine_ready w) eqn:Hready.
    2: { destruct (dissociate_by_location_unready w _ _ _ _ Ha Hb Hready)
           as (x & w' & -> & _). done. }
    rewrite (dissociate_by_location_ready w _ _ _ _ r Ha Hb Hr Hready).
    destruct (fault_at 0 w); [done|]. cbv zeta.
    destruct (request_bidirectional w) eqn:Hbi.
    + destruct (fault_at 1 w); [done|].
      rewrite location_response_ab, location_response_ba.
      split; [apply length_take_bound|].
      exists p_a, p_b, r. split_and!; try done. apply length_take_bound.
    + rewrite location_response_ab, location_response_ba.
      split; [apply length_take_bound|].
      exists p_a, p_b, r. done.
Qed.

(** C4. Taking a condition away from itself leaves nothing: in a ready
    world whose statements meet no fault, the term view on (A, A)
    answers with the empty list, and the location view on two tokens of
    the same point answers with an empty [direction_A_minus_B], for
    every radius. *)
Theorem self_dissociation_is_empty (w : world) (term : string)
    (coords_a coords_b : string) (p : coords) :
  engine_ready w = true →
  fault_at 0 w = None →
  fault_at 1 w = None →
  parse_coords coords_a = Ok (Some p) →
  parse_coords coords_b = Ok (Some p) →
  dissociate_by_term term term w
  = (Ok (term_response term term []), world_after [term_query term term] w)
  ∧ ∃ resp w', dissociate_by_location coords_a coords_b w = (Ok resp, w')
      ∧ status resp = 200
      ∧ field "direction_A_minus_B" (body resp) = Some (direction coords_a coords_b [])
      ∧ direction_study_ids "direction_A_minus_B" resp = Some [].
Proof.
  intros Hready H0 H1 Ha Hb. split.
  - rewrite (dissociate_by_term_ready w term term Hready), H0.
    unfold term_difference. by rewrite sql_except_self.
  - destruct (request_radius_total w) as [r Hr].
    rewrite (dissociate_by_location_ready w _ _ _ _ r Ha Hb Hr Hready), H0, H1.
    unfold location_difference. rewrite sql_except_self. cbv zeta.
    destruct (request_bidirectional w); eexists _, _; split_and!; done.
Qed.

(** ** The bidirectional flag *)

Ltac by_cases_on_char c :=
  destruct c as [[] [] [] [] [] [] [] []]; vm_compute;
  (split;
   [ intros Heq; first [left; reflexivity | right; reflexivity | discriminate Heq]
   | intros [Heq|Heq]; first [reflexivity | discriminate Heq] ]).

Lemma lower_char_t (c : ascii) : lower_char c = "t"%char ↔ (c = "t" ∨ c = "T")%char.
Proof. by_cases_on_char c. Qed.

Lemma lower_char_r (c : ascii) : lower_char c = "r"%char ↔ (c = "r" ∨ c = "R")%char.
Proof. by_cases_on_char c. Qed.

Lemma lower_char_u (c : ascii) : lower_char c = "u"%char ↔ (c = "u" ∨ c = "U")%char.
Proof. by_cases_on_char c. Qed.

Lemma lower_char_e (c : ascii) : lower_char c = "e"%char ↔ (c = "e" ∨ c = "E")%char.
Proof. by_cases_on_char c. Qed.

Lemma lower_true_iff (v : string) : lower v = "true" ↔ spells_true v.
Proof.
  unfold spells_true. split.
  - destruct v as [|c1 [|c2 [|c3 [|c4 [|c5 v]]]]]; simpl; try discriminate.
    intros [= H1 H2 H3 H4]. exists c1, c2, c3, c4.
    apply lower_char_t in H1. apply lower_char_r in H2.
    apply lower_char_u in H3. apply lower_char_e in H4. done.
  - intros (c1 & c2 & c3 & c4 & -> & H1 & H2 & H3 & H4). simpl.
    apply lower_char_t in H1. apply lower_char_r in H2.
    apply lower_char_u in H3. apply lower_char_e in H4. congruence.
Qed.

Lemma request_bidirectional_iff (w : world) :
  request_bidirectional w = true
  ↔ ∃ v, dict_get "bidirectional" (args (request w)) = Some v ∧ spells_true v.
Proof.
  rewrite request_bidirectional_eq, String.eqb_eq, lower_true_iff.
  destruct (dict_get "bidirectional" (args (request w))) as [v|]; simpl.
  - split; [eauto|]. by intros (v' & [= <-] & Hv).
  - split; [|by intros (v' & [=] & _)].
    intros (c1 & c2 & c3 & c4 & [=] & _).
Qed.

(** C5. A successful response of the location view always has the
    [direction_A_minus_B] block, and it has the [direction_B_minus_A]
    block exactly when the request carries a [bidirectional] parameter
    whose value is [true] in some mix of capitals and small letters. *)
Theorem second_direction_iff_flag (w w' : world) (coords_a coords_b : string)
    (resp : response) :
  dissociate_by_location coords_a coords_b w = (Ok resp, w') →
  status resp = 200 →
  has_key "direction_A_minus_B" (body resp) = true
  ∧ (has_key "direction_B_minus_A" (body resp) = true
     ↔ ∃ v, dict_get "bidirectional" (args (request w)) = Some v ∧ spells_true v).
Proof.
  intros Hrun Hstatus. rewrite <- request_bidirectional_iff.
  destruct (parse_coords_total coords_a) as [[p_a|] Ha].
  2: { rewrite dissociate_by_location_invalid in Hrun by eauto. done. }
  destruct (parse_coords_total coords_b) as [[p_b|] Hb].
  2: { rewrite dissociate_by_location_invalid in Hrun by eauto. done. }
  destruct (request_radius_total w) as [r Hr].
  destruct (engine_ready w) eqn:Hready.
  2: { destruct (dissociate_by_location_unready w _ _ _ _ Ha Hb Hready)
         as (x & w1 & Hrun' & _).
       rewrite Hrun' in Hrun. injection Hrun as <- _. done. }
  rewrite (dissociate_by_location_ready w _ _ _ _ r Ha Hb Hr Hready) in Hrun.
  destruct (fault_at 0 w).
  { injection Hrun as <- _. done. }
  cbv zeta in Hrun. destruct (request_bidirectional w).
  - destruct (fault_at 1 w); injection Hrun as <- _; done.
  - injection Hrun as <- _. done.
Qed.

(** ** The two directions *)

(** C6. In bidirectional mode, in a ready world whose statements meet
    no fault, the second statement is the first with the two points
    exchanged and the same radius; its answer is cut at 250 on its own;
    and the [direction_B_minus_A] block of the request (a, b) is the
    [direction_A_minus_B] block of the request (b, a). *)
Theorem second_direction_is_swap (w : world) (coords_a coords_b : string)
    (p_a p_b : coords) (r : number) :
  parse_coords coords_a = Ok (Some p_a) →
  parse_coords coords_b = Ok (Some p_b) →
  request_radius w = Ok r →
  request_bidirectional w = true →
  engine_ready w = true →
  fault_at 0 w = None →
  fault_at 1 w = None →
  ∃ resp resp' ids_ab ids_ba,
    dissociate_by_location coords_a coords_b w
    = (Ok resp, world_after [location_query p_a p_b r; location_query p_b p_a r] w)
    ∧ dissociate_by_location coords_b coords_a w
      = (Ok resp', world_after [location_query p_b p_a r; location_query p_a p_b r] w)
    ∧ field "direction_A_minus_B" (body resp) = Some (direction coords_a coords_b ids_ab)
    ∧ field "direction_B_minus_A" (body resp) = Some (direction coords_b coords_a ids_ba)
    ∧ field "direction_A_minus_B" (body resp') = field "direction_B_minus_A" (body resp)
    ∧ ids_ab = take 250 (sql_except (near_point (ns w) p_a r) (near_point (ns w) p_b r))
    ∧ ids_ba = take 250 (sql_except (near_point (ns w) p_b r) (near_point (ns w) p_a r))
    ∧ (length ids_ba ≤ 250)%nat
    ∧ (∀ id, id ∈ ids_ba → is_near (ns w) p_b r id ∧ ¬ is_near (ns w) p_a r id)
    ∧ dict_get "radius" (location_query p_a p_b r).2 = Some (BNum r)
    ∧ dict_get "radius" (location_query p_b p_a r).2 = Some (BNum r).
Proof.
  intros Ha Hb Hr Hbi Hready H0 H1.
  rewrite (dissociate_by_location_ready w _ _ _ _ r Ha Hb Hr Hready).
  rewrite (dissociate_by_location_ready w _ _ _ _ r Hb Ha Hr Hready).
  rewrite H0, H1, Hbi. cbv zeta.
  eexists _, _, _, _. split_and!; try done.
  - apply length_take_bound.
  - intros id Hid.
    rewrite <- !elem_of_near_point, <- elem_of_sql_except.
    eapply elem_of_sublist; [exact Hid|apply sublist_take].
  - by destruct p_a as [[??]?], p_b as [[??]?].
  - by destruct p_a as [[??]?], p_b as [[??]?].
Qed.

(** ** The radius *)

Lemma radius_of_location_query (p1 p2 : coords) (r : number) :
  dict_get "radius" (location_query p1 p2 r).2 = Some (BNum r).
Proof. by destruct p1 as [[??]?], p2 as [[??]?]. Qed.

(** What a location request sends and answers, for the radius [r] that
    [request.args.get] gives: every statement sent binds [radius] to
    [r], and a response with status 200 echoes [r] and holds the answer
    of the first statement for [r]. *)
Lemma location_uses_radius (w : world) (coords_a coords_b : string) (r : number) :
  request_radius w = Ok r →
  ∃ qs, executed (after (dissociate_by_location coords_a coords_b w)) = (executed w ++ qs)%list
    ∧ Forall (λ q, dict_get "radius" q.2 = Some (BNum r)) qs
    ∧ ∀ resp, returned (dissociate_by_location coords_a coords_b w) = Some resp →
        status resp = 200 →
        field "radius" (body resp) = Some (PyNum r)
        ∧ ∃ p_a p_b, parse_coords coords_a = Ok (Some p_a)
            ∧ parse_coords coords_b = Ok (Some p_b)
            ∧ direction_study_ids "direction_A_minus_B" resp
              = Some (take 250 (sql_except (near_point (ns w) p_a r)
                                           (near_point (ns w) p_b r))).
Proof.
  intros Hr. unfold after, returned.
  destruct (parse_coords_total coords_a) as [[p_a|] Ha].
  2: { rewrite dissociate_by_location_invalid by eauto.
       exists []. rewrite app_nil_r. simpl. split_and!; done. }
  destruct (parse_coords_total coords_b) as [[p_b|] Hb].
  2: { rewrite dissociate_by_location_invalid by eauto.
       exists []. rewrite app_nil_r. simpl. split_and!; done. }
  destruct (engine_ready w) eqn:Hready.
  2: { destruct (dissociate_by_location_unready w _ _ _ _ Ha Hb Hready)
         as (x & w1 & -> & Hlog).
       exists []. rewrite app_nil_r. simpl. split_and!; [done|done|].
       by intros resp [= <-]. }
  rewrite (dissociate_by_location_ready w _ _ _ _ r Ha Hb Hr Hready).
  pose proof (radius_of_location_query p_a p_b r) as Hab.
  pose proof (radius_of_location_query p_b p_a r) as Hba.
  destruct (fault_at 0 w).
  { exists [location_query p_a p_b r]. simpl. split_and!; [done|by repeat constructor|].
    by intros resp [= <-]. }
  cbv zeta. destruct (request_bidirectional w).
  - exists [location_query p_a p_b r; location_query p_b p_a r]. simpl.
    split_and!; [done|by repeat constructor|].
    destruct (fault_at 1 w); intros resp [= <-]; [done|]. intros _.
    split; [done|]. exists p_a, p_b. split_and!; try done.
    apply location_response_ab.
  - exists [location_query p_a p_b r]. simpl. split_and!; [done|by repeat constructor|].
    intros resp [= <-] _. split; [done|]. exists p_a, p_b. split_and!; try done.
    apply location_response_ab.
Qed.

(** C7. When the request has no [radius] parameter, every statement the
    location view sends binds [radius] to 10, and a successful response
    echoes 10 and holds the answer for the radius 10. *)
Theorem default_radius_is_10 (w : world) (coords_a coords_b : string) :
  dict_get "radius" (args (request w)) = None →
  request_radius w = Ok (NInt 10)
  ∧ ∃ qs, executed (after (dissociate_by_location coords_a coords_b w)) = (executed w ++ qs)%list
      ∧ Forall (λ q, dict_get "radius" q.2 = Some (BNum (NInt 10))) qs
      ∧ ∀ resp, returned (dissociate_by_location coords_a coords_b w) = Some resp →
          status resp = 200 →
          field "radius" (body resp) = Some (PyNum (NInt 10))
          ∧ ∃ p_a p_b, parse_coords coords_a = Ok (Some p_a)
              ∧ parse_coords coords_b = Ok (Some p_b)
              ∧ direction_study_ids "direction_A_minus_B" resp
                = Some (take 250 (sql_except (near_point (ns w) p_a (NInt 10))
                                             (near_point (ns w) p_b (NInt 10)))).
Proof.
  intros Hnone.
  assert (request_radius w = Ok (NInt 10)) as Hr.
  { unfold request_radius, multidict_get. by rewrite Hnone. }
  split; [done|]. by apply location_uses_radius.
Qed.

(** C10. When the request has a [radius] parameter that [float] does not
    accept, the location view does not answer with the 400 error for
    it: the radius is the default 10, whose value is that of [10.0], and
    with two well-formed tokens the view returns a response, the
    successful one in a ready world whose statements meet no fault. *)
Theorem unparseable_radius_is_ignored (w : world) (coords_a coords_b v : string) (e : exn)
    (p_a p_b : coords) :
  dict_get "radius" (args (request w)) = Some v →
  py_float v = Raise e →
  parse_coords coords_a = Ok (Some p_a) →
  parse_coords coords_b = Ok (Some p_b) →
  request_radius w = Ok (NInt 10)
  ∧ py_float "10.0" = Ok (number_value (NInt 10))
  ∧ (∃ resp w', dissociate_by_location coords_a coords_b w = (Ok resp, w'))
  ∧ (∃ qs, executed (after (dissociate_by_location coords_a coords_b w)) = (executed w ++ qs)%list
       ∧ Forall (λ q, dict_get "radius" q.2 = Some (BNum (NInt 10))) qs)
  ∧ (engine_ready w = true → fault_at 0 w = None → fault_at 1 w = None →
     ∃ ba, dissociate_by_location coords_a coords_b w
           = (Ok (location_response coords_a coords_b (NInt 10)
                    (take 250 (location_difference (ns w) p_a p_b (NInt 10))) ba),
              after (dissociate_by_location coords_a coords_b w))).
Proof.
  intros Hv He Ha Hb.
  assert (request_radius w = Ok (NInt 10)) as Hr.
  { unfold request_radius, multidict_get, float. rewrite Hv, He. simpl.
    apply py_float_raises in He as ->. done. }
  split_and!; [done|by vm_compute| | |].
  - destruct (engine_ready w) eqn:Hready.
    + rewrite (dissociate_by_location_ready w _ _ _ _ _ Ha Hb Hr Hready).
      destruct (fault_at 0 w); [eauto|]. cbv zeta.
      destruct (request_bidirectional w); eauto.
    + destruct (dissociate_by_location_unready w _ _ _ _ Ha Hb Hready)
        as (x & w1 & -> & _). eauto.
  - destruct (location_uses_radius w coords_a coords_b _ Hr) as (qs & Hlog & Hqs & _).
    eauto.
  - intros Hready H0 H1. unfold after.
    rewrite (dissociate_by_location_ready w _ _ _ _ _ Ha Hb Hr Hready), H0, H1.
    cbv zeta. destruct (request_bidirectional w); eauto.
Qed.

(** ** The coordinate parser *)

Lemma comprehension_Ok {A B : Type} (f : A → outcome B) (l : list A) (bs : list B) :
  comprehension f l = Ok bs ↔ Forall2 (λ a b, f a = Ok b) l bs.
Proof.
  revert bs. induction l as [|a l IH]; intros bs; simpl.
  - split; [intros [= <-]; constructor|]. by intros ->%Forall2_nil_inv_l.
  - destruct (f a) as [b|e] eqn:Hfa; simpl.
    + destruct (comprehension f l) as [bs'|e]; simpl.
      * split.
        -- intros [= <-]. constructor; [done|]. by apply IH.
        -- intros (b' & bs'' & Hb & Hbs & ->)%Forall2_cons_inv_l.
           apply IH in Hbs. congruence.
      * split; [done|].
        intros (b' & bs'' & Hb & Hbs & ->)%Forall2_cons_inv_l.
        by apply IH in Hbs.
    + split; [done|].
      intros (b' & bs'' & Hb & Hbs & ->)%Forall2_cons_inv_l. congruence.
Qed.

Lemma comprehension_Raise {A B : Type} (f : A → outcome B) (l : list A) :
  (∃ e, comprehension f l = Raise e) ↔ ∃ a e, a ∈ l ∧ f a = Raise e.
Proof.
  induction l as [|a l IH]; simpl.
  - split; [by intros [e ?]|]. by intros (a & e & ?%elem_of_nil & _).
  - destruct (f a) as [b|e] eqn:Hfa; simpl.
    + destruct (comprehension f l) as [bs|e]; simpl.
      * split; [by intros [e ?]|].
        intros (a' & e & [->|Hin]%elem_of_cons & Ha'); [congruence|].
        destruct IH as [_ IH]. destruct IH as [? ?]; [eauto|done].
      * split; [|eauto]. intros _.
        destruct IH as [IH _]. destruct IH as (a' & e' & Hin & Ha'); [eauto|].
        exists a', e'. split; [by right|done].
    + split; [|eauto]. intros _. exists a, e. split; [by left|done].
Qed.

Lemma parse_coords_Some (s : string) (x y z : spec_float) :
  parse_coords s = Ok (Some (x, y, z))
  ↔ ∃ p1 p2 p3, split "_" s = [p1; p2; p3]
      ∧ py_float p1 = Ok x ∧ py_float p2 = Ok y ∧ py_float p3 = Ok z.
Proof.
  unfold parse_coords, parse_coords_try. split.
  - destruct (comprehension py_float (split "_" s)) as [parts|e] eqn:Hc; cbn [obind].
    + apply comprehension_Ok in Hc.
      destruct parts as [|x' [|y' [|z' [|? ?]]]]; try done.
      intros [= -> -> ->].
      apply Forall2_cons_inv_r in Hc as (p1 & l1 & H1 & Hc & Hs).
      apply Forall2_cons_inv_r in Hc as (p2 & l2 & H2 & Hc & ->).
      apply Forall2_cons_inv_r in Hc as (p3 & l3 & H3 & Hc & ->).
      apply Forall2_nil_inv_r in Hc as ->. eauto 10.
    + by destruct (caught_by [ValueError; TypeError] e).
  - intros (p1 & p2 & p3 & -> & H1 & H2 & H3). simpl. by rewrite H1, H2, H3.
Qed.

Lemma parse_coords_None (s : string) : parse_coords s = Ok None ↔ malformed s.
Proof.
  unfold malformed. split.
  - intros Hnone.
    destruct (decide (length (split "_" s) = 3%nat)) as [Hlen|]; [|by left]. right.
    apply comprehension_Raise.
    destruct (comprehension py_float (split "_" s)) as [parts|e] eqn:Hc; [|eauto].
    exfalso. unfold parse_coords, parse_coords_try in Hnone. rewrite Hc in Hnone.
    apply comprehension_Ok, Forall2_length in Hc. rewrite Hlen in Hc.
    by destruct parts as [|x [|y [|z [|? ?]]]].
  - intros Hbad. destruct (parse_coords_total s) as [[[[x y] z]|] Hr]; [|done].
    exfalso. apply parse_coords_Some in Hr as (p1 & p2 & p3 & Hs & H1 & H2 & H3).
    rewrite Hs in Hbad. destruct Hbad as [Hlen|(part & e & Hin & He)]; [done|].
    apply elem_of_cons in Hin as [->|Hin]; [congruence|].
    apply elem_of_cons in Hin as [->|Hin]; [congruence|].
    apply elem_of_cons in Hin as [->|Hin]; [congruence|].
    by apply elem_of_nil in Hin.
Qed.

(** *** Splitting and joining *)

Lemma split_not_nil (sep : ascii) (s : string) : split sep s ≠ [].
Proof.
  destruct s as [|c s]; simpl; [done|].
  destruct (Ascii.eqb c sep); [done|]. by destruct (split sep s).
Qed.

Lemma join_cons (sep : ascii) (p : string) (ps : list string) :
  ps ≠ [] → join sep (p :: ps) = p +:+ String sep (join sep ps).
Proof. by destruct ps. Qed.

Lemma join_split (sep : ascii) (s : string) : join sep (split sep s) = s.
Proof.
  induction s as [|c s IH]; [done|]. cbn [split].
  destruct (Ascii.eqb_spec c sep) as [->|Hne].
  - rewrite join_cons by apply split_not_nil. by rewrite IH.
  - pose proof (split_not_nil sep s) as Hnil.
    destruct (split sep s) as [|p ps]; [done|].
    destruct ps as [|q ps]; simpl in *; by rewrite <- IH.
Qed.

Lemma split_without_sep (sep : ascii) (s : string) :
  Forall (λ p, contains sep p = false) (split sep s).
Proof.
  induction s as [|c s IH]; cbn [split]; [by repeat constructor|].
  destruct (Ascii.eqb_spec c sep) as [->|Hne]; [by constructor|].
  destruct (split sep s) as [|p ps]; simpl.
  - repeat constructor. simpl.
    destruct (Ascii.eqb_spec sep c); [congruence|done].
  - apply Forall_cons in IH as [Hp Hps]. constructor; [|done]. simpl.
    destruct (Ascii.eqb_spec sep c); [congruence|done].
Qed.

Lemma split_part (sep : ascii) (p : string) :
  contains sep p = false → split sep p = [p].
Proof.
  induction p as [|c p IH]; simpl; [done|].
  intros [Hc Hp]%orb_false_elim. rewrite Ascii.eqb_sym, Hc. by rewrite IH.
Qed.

Lemma split_part_sep (sep : ascii) (p rest : string) :
  contains sep p = false → split sep (p +:+ String sep rest) = p :: split sep rest.
Proof.
  induction p as [|c p IH]; simpl.
  - intros _. by rewrite Ascii.eqb_refl.
  - intros [Hc Hp]%orb_false_elim. rewrite Ascii.eqb_sym, Hc. by rewrite IH.
Qed.

Lemma split_join (sep : ascii) (ps : list string) :
  ps ≠ [] → Forall (λ p, contains sep p = false) ps → split sep (join sep ps) = ps.
Proof.
  induction ps as [|p ps IH]; [done|]. intros _ [Hp Hps]%Forall_cons.
  destruct ps as [|q ps]; [by apply split_part|].
  rewrite join_cons by done. rewrite split_part_sep by done. by rewrite IH.
Qed.

Lemma split_three (s p1 p2 p3 : string) :
  split "_" s = [p1; p2; p3]
  ↔ s = join "_" [p1; p2; p3]
    ∧ contains "_" p1 = false ∧ contains "_" p2 = false ∧ contains "_" p3 = false.
Proof.
  split.
  - intros Hs. pose proof (split_without_sep "_" s) as Hall. rewrite Hs in Hall.
    apply Forall_cons in Hall as [H1 Hall]. apply Forall_cons in Hall as [H2 Hall].
    apply Forall_cons in Hall as [H3 _].
    split_and!; try done. by rewrite <- Hs, join_split.
  - intros (-> & H1 & H2 & H3). apply split_join; [done|]. by repeat constructor.
Qed.

(** *** Decimal numerals are numbers for [float] *)

Lemma plain_char_kept (c : ascii) :
  plain_char c = true → is_float_space c = false ∧ Ascii.eqb "_" c = false.
Proof. destruct c as [[] [] [] [] [] [] [] []]; vm_compute; intros; by try split. Qed.

Lemma digit_not_letter (c : ascii) :
  is_digit c = true →
  Ascii.eqb (lower_char c) "i" = false ∧ Ascii.eqb (lower_char c) "n" = false.
Proof. destruct c as [[] [] [] [] [] [] [] []]; vm_compute; intros; by try split. Qed.

Lemma all_digits_plain (s : string) : all_digits s = true → all_plain s = true.
Proof.
  induction s as [|c s IH]; simpl; [done|].
  intros [Hc Hs]%andb_prop. unfold plain_char. rewrite Hc. simpl. auto.
Qed.

Lemma digits_then_fraction_plain (s : string) :
  digits_then_fraction s = true → all_plain s = true.
Proof.
  induction s as [|c s IH]; simpl; [done|].
  unfold plain_char. destruct (is_digit c); simpl; [auto|].
  intros [-> Hs]%andb_prop. simpl. by apply all_digits_plain.
Qed.

Lemma decimal_numeral_plain (s : string) : decimal_numeral s = true → all_plain s = true.
Proof.
  unfold decimal_numeral, take_sign.
  assert (∀ t, match t with
               | EmptyString => false
               | String c s' => is_digit c && digits_then_fraction s'
               end = true → all_plain t = true) as Hbody.
  { intros [|c t]; [done|]. intros [Hc Ht]%andb_prop. simpl.
    unfold plain_char. rewrite Hc. simpl. by apply digits_then_fraction_plain. }
  destruct s as [|c s]; [done|].
  destruct (Ascii.eqb_spec c "-") as [->|Hm]; [by intros ?%Hbody|].
  destruct (Ascii.eqb_spec c "+") as [->|Hp]; [by intros ?%Hbody|].
  replace (snd match c with
               | "-"%char => (true, s)
               | "+"%char => (false, s)
               | _ => (false, String c s)
               end) with (String c s); [exact (Hbody (String c s))|].
  destruct c as [[] [] [] [] [] [] [] []]; done.
Qed.

Lemma lstrip_plain (s : string) : all_plain s = true → lstrip s = s.
Proof.
  destruct s as [|c s]; simpl; [done|].
  intros [Hc _]%andb_prop. by apply plain_char_kept in Hc as [-> _].
Qed.

Lemma rstrip_tail_plain (s : string) : all_plain s = true → rstrip_tail s = s.
Proof.
  induction s as [|c s IH]; simpl; [done|].
  intros [Hc Hs]%andb_prop. rewrite IH by done.
  apply plain_char_kept in Hc as [-> _]. by destruct s.
Qed.

Lemma rstrip_plain (s : string) : all_plain s = true → rstrip s = s.
Proof.
  destruct s as [|c s]; simpl; [done|].
  intros [_ Hs]%andb_prop. by rewrite rstrip_tail_plain.
Qed.

Lemma has_underscore_plain (s : string) : all_plain s = true → has_underscore s = false.
Proof.
  unfold has_underscore.
  induction s as [|c s IH]; cbn [list_ascii_of_string existsb all_plain]; [done|].
  intros [Hc Hs]%andb_prop. apply plain_char_kept in Hc as [_ ->]. auto.
Qed.

Lemma take_digits_all (acc : Z) (s : string) :
  all_digits s = true → ∃ v n, take_digits acc s = (v, n, EmptyString) ∧ 0 ≤ n.
Proof.
  revert acc. induction s as [|c s IH]; intros acc; simpl.
  - intros _. by exists acc, 0.
  - intros [Hc Hs]%andb_prop. rewrite Hc.
    destruct (IH (10 * acc + digit_value c) Hs) as (v & n & -> & Hn).
    exists v, (n + 1). split; [done|lia].
Qed.

Lemma take_digits_fraction (acc : Z) (s : string) :
  digits_then_fraction s = true →
  ∃ v n r, take_digits acc s = (v, n, r) ∧ 0 ≤ n
           ∧ (r = EmptyString ∨ ∃ ds, r = String "." ds ∧ all_digits ds = true).
Proof.
  revert acc. induction s as [|c s IH]; intros acc; simpl.
  - intros _. exists acc, 0, EmptyString. split_and!; [done|done|by left].
  - destruct (is_digit c) eqn:Hc.
    + intros Hs. destruct (IH (10 * acc + digit_value c) Hs) as (v & n & r & -> & Hn & Hr).
      exists v, (n + 1), r. split_and!; [done|lia|done].
    + intros [Hdot Hs]%andb_prop. apply Ascii.eqb_eq in Hdot as ->.
      exists acc, 0, (String "." s). split_and!; [done|done|]. right. eauto.
Qed.

Lemma parse_inf_or_nan_digit (neg : bool) (c : ascii) (s : string) :
  is_digit c = true → parse_inf_or_nan neg (String c s) = None.
Proof.
  intros [Hi Hn]%digit_not_letter. unfold parse_inf_or_nan. simpl.
  by rewrite Hi, Hn.
Qed.

Lemma parse_decimal_numeral (neg : bool) (c : ascii) (s : string) :
  is_digit c = true → digits_then_fraction s = true →
  ∃ f, parse_decimal neg (String c s) = Some f.
Proof.
  intros Hc Hs. unfold parse_decimal. cbn [take_digits]. rewrite Hc.
  destruct (take_digits_fraction (10 * 0 + digit_value c) s Hs)
    as (v & n & r & -> & Hn & [->|(ds & -> & Hds)]).
  - replace (n + 1 + 0 =? 0) with false by lia. eauto.
  - destruct (take_digits_all v ds Hds) as (m & nf & -> & Hnf).
    replace (n + 1 + nf =? 0) with false by lia. eauto.
Qed.

Lemma decimal_numeral_accepted (p : string) :
  decimal_numeral p = true → ∃ f, py_float p = Ok f.
Proof.
  intros Hp. pose proof (decimal_numeral_plain p Hp) as Hplain.
  unfold py_float. rewrite lstrip_plain, rstrip_plain, has_underscore_plain by done.
  simpl. unfold float_from_string_inner, decimal_numeral in *.
  destruct (take_sign p) as [neg [|c s]]; simpl in Hp; [done|].
  apply andb_prop in Hp as [Hc Hs].
  rewrite parse_inf_or_nan_digit by done.
  destruct (parse_decimal_numeral neg c s Hc Hs) as [f ->]. eauto.
Qed.

(** C3, as amended. The coordinate parser never raises. It returns
    (x, y, z) exactly when splitting the token on the underscore gives
    three parts that [float] accepts, x, y and z being what [float]
    makes of them; it returns nothing exactly when the token is
    malformed. A signed decimal numeral with an optional fraction is
    accepted by [float]; [float] also accepts the spellings of infinity
    and of NaN, so that a value returned need not be finite. The four
    tokens of the specification give what it says. *)
Theorem parse_coords_follows_float :
  (∀ s, ∃ r, parse_coords s = Ok r)
  ∧ (∀ s x y z,
       parse_coords s = Ok (Some (x, y, z))
       ↔ ∃ p1 p2 p3, split "_" s = [p1; p2; p3]
           ∧ py_float p1 = Ok x ∧ py_float p2 = Ok y ∧ py_float p3 = Ok z)
  ∧ (∀ s p1 p2 p3,
       split "_" s = [p1; p2; p3]
       ↔ s = join "_" [p1; p2; p3]
         ∧ contains "_" p1 = false ∧ contains "_" p2 = false ∧ contains "_" p3 = false)
  ∧ (∀ s, parse_coords s = Ok None ↔ malformed s)
  ∧ (∀ p, decimal_numeral p = true → ∃ f, py_float p = Ok f)
  ∧ py_float "inf" = Ok (S754_infinity false)
  ∧ py_float "nan" = Ok S754_nan
  ∧ parse_coords "0_-52_26" = Ok (Some (float_of_Z 0, float_of_Z (-52), float_of_Z 26))
  ∧ parse_coords "1_2" = Ok None
  ∧ parse_coords "a_b_c" = Ok None
  ∧ parse_coords "1_2_3_4" = Ok None.
Proof.
  split_and!.
  - apply parse_coords_total.
  - apply parse_coords_Some.
  - apply split_three.
  - apply parse_coords_None.
  - apply decimal_numeral_accepted.
  - by vm_compute.
  - by vm_compute.
  - by vm_compute.
  - by vm_compute.
  - by vm_compute.
  - by vm_compute.
Qed.

(** C8. When either token is malformed (a wrong number of parts, or a
    part that is not a number), the location view raises the 400 error
    with its message and leaves the world as it was: no engine is
    fetched and no statement is sent. *)
Theorem malformed_token_is_400 (w : world) (coords_a coords_b : string) :
  malformed coords_a ∨ malformed coords_b →
  dissociate_by_location coords_a coords_b w
  = (Raise (mkExn (HTTPException 400) invalid_coordinates), w)
  ∧ executed (after (dissociate_by_location coords_a coords_b w)) = executed w
  ∧ _engine (after (dissociate_by_location coords_a coords_b w)) = _engine w.
Proof.
  intros Hbad.
  rewrite dissociate_by_location_invalid; [done|].
  destruct Hbad as [Hbad|Hbad]; apply parse_coords_None in Hbad; eauto.
Qed.

(** ** Failures of the storage *)

(** C9. In a ready world, when the statement of the term view, the
    first statement of the location view, or (in bidirectional mode)
    its second statement raises, the view answers with the error
    response alone, which carries the text of the exception; the
    failing statement is the last one sent, and it is sent once. A
    failure of the second statement leaves nothing of the first
    answer in the response. *)
Theorem no_partial_success (w : world) (e : exn) (term_a term_b coords_a coords_b : string)
    (p_a p_b : coords) (r : number) :
  engine_ready w = true →
  parse_coords coords_a = Ok (Some p_a) →
  parse_coords coords_b = Ok (Some p_b) →
  request_radius w = Ok r →
  (fault_at 0 w = Some e →
     dissociate_by_term term_a term_b w
     = (Ok (error_response ("Database error: " +:+ exn_str e)),
        world_after [term_query term_a term_b] w)
     ∧ dissociate_by_location coords_a coords_b w
       = (Ok (error_response (location_error e)),
          world_after [location_query p_a p_b r] w))
  ∧ (fault_at 0 w = None → fault_at 1 w = Some e → request_bidirectional w = true →
     dissociate_by_location coords_a coords_b w
     = (Ok (error_response (location_error e)),
        world_after [location_query p_a p_b r; location_query p_b p_a r] w)
     ∧ has_key "direction_A_minus_B" (error_response (location_error e)).(body) = false)
  ∧ (∃ prefix, location_error e = prefix +:+ exn_str e).
Proof.
  intros Hready Ha Hb Hr. split_and!.
  - intros H0.
    rewrite (dissociate_by_term_ready w _ _ Hready).
    rewrite (dissociate_by_location_ready w _ _ _ _ r Ha Hb Hr Hready).
    by rewrite H0.
  - intros H0 H1 Hbi.
    rewrite (dissociate_by_location_ready w _ _ _ _ r Ha Hb Hr Hready).
    by rewrite H0, H1, Hbi.
  - unfold location_error. eauto.
Qed.

End Properties.

(** * The properties on the concrete corpus *)

Lemma term_dissociation_up_to_cap_witness :
  engine_ready (quiet [] corpus) = true
  ∧ fault_at 0 (quiet [] corpus) = None
  ∧ ∃ ids all,
      returned (dissociate_by_term "fear" "reward" (quiet [] corpus))
      = Some (term_response "fear" "reward" ids)
      ∧ ids = take 250 all ∧ NoDup all ∧ ids = [1].
Proof.
  split; [reflexivity|]. split; [reflexivity|].
  destruct (term_dissociation_up_to_cap (quiet [] corpus) "fear" "reward" eq_refl eq_refl)
    as (ids & all & Hrun & Hids & Hnd & _).
  assert (returned (dissociate_by_term "fear" "reward" (quiet [] corpus)) ≫= term_study_ids
          = Some ids) as Hread.
  { rewrite Hrun. apply term_response_ids. }
  vm_compute in Hread. injection Hread as <-.
  exists [1], all. rewrite Hrun. split_and!; done.
Defined.

(** C1 as it is written fails on a corpus of 251 studies tagged [t]: the
    answer has 250 of them, and study 251 is not among them. *)
Lemma term_cap_leaves_studies_out :
  ¬ (∀ (w : world) (term_a term_b : string) (ids : list Z),
       engine_ready w = true → fault_at 0 w = None →
       returned (dissociate_by_term term_a term_b w) ≫= term_study_ids = Some ids →
       ∀ id, id ∈ ids ↔ has_term (ns w) term_a id ∧ ¬ has_term (ns w) term_b id).
Proof.
  intros Hclaim.
  specialize (Hclaim (quiet [] (many_tagged 251 "t")) "t" "u"
                (Z.of_nat <$> seq 1 250) eq_refl eq_refl).
  destruct (Hclaim ltac:(by vm_compute) 251) as [_ Hin].
  assert (251 ∉ Z.of_nat <$> seq 1 250) as Hout.
  { apply (bool_decide_unpack _). by vm_compute. }
  apply Hout, Hin. rewrite <- !elem_of_tagged. split.
  - apply (bool_decide_unpack _). by vm_compute.
  - apply (bool_decide_unpack _). by vm_compute.
Qed.

(** C3 as it is written fails on the token [inf_nan_0]: the parser
    returns a value for it, and its first part is no finite number. *)
Lemma parse_coords_accepts_inf :
  ¬ (∀ s, (∃ t, parse_coords s = Ok (Some t))
          ↔ length (split "_" s) = 3%nat ∧ ∀ p, p ∈ split "_" s → finite_decimal p).
Proof.
  intros Hclaim. destruct (Hclaim "inf_nan_0") as [Hfwd _].
  destruct Hfwd as [_ Hall]; [by eexists; vm_compute|].
  destruct (Hall "inf") as (f & Hf & Hfin); [by left|].
  vm_compute in Hf. injection Hf as <-. discriminate Hfin.
Qed.

Lemma self_dissociation_is_empty_witness :
  let w := quiet [("radius", "5")] corpus in
  engine_ready w = true
  ∧ parse_coords "0_-52_26" = Ok (Some (float_of_Z 0, float_of_Z (-52), float_of_Z 26))
  ∧ returned (dissociate_by_term "fear" "fear" w) = Some (term_response "fear" "fear" [])
  ∧ ∃ resp, returned (dissociate_by_location "0_-52_26" "0_-52_26" w) = Some resp
      ∧ direction_study_ids "direction_A_minus_B" resp = Some [].
Proof.
  intros w.
  assert (parse_coords "0_-52_26"
          = Ok (Some (float_of_Z 0, float_of_Z (-52), float_of_Z 26))) as Hp
    by (vm_compute; reflexivity).
  destruct (self_dissociation_is_empty w "fear" "0_-52_26" "0_-52_26" _
              eq_refl eq_refl eq_refl Hp Hp) as (Hterm & resp & w' & Hloc & _ & _ & Hids).
  split; [reflexivity|]. split; [exact Hp|]. split.
  - rewrite Hterm. reflexivity.
  - exists resp. rewrite Hloc. split; [reflexivity|exact Hids].
Defined.

Lemma second_direction_iff_flag_witness :
  let w := quiet [("bidirectional", "TRUE")] corpus in
  let resp := location_response "0_0_0" "100_100_100" (NInt 10) [1] (Some [3]) in
  dissociate_by_location "0_0_0" "100_100_100" w
  = (Ok resp, after (dissociate_by_location "0_0_0" "100_100_100" w))
  ∧ status resp = 200
  ∧ has_key "direction_A_minus_B" (body resp) = true
  ∧ (has_key "direction_B_minus_A" (body resp) = true
     ↔ ∃ v, dict_get "bidirectional" (args (request w)) = Some v ∧ spells_true v).
Proof.
  intros w resp.
  assert (dissociate_by_location "0_0_0" "100_100_100" w
          = (Ok resp, after (dissociate_by_location "0_0_0" "100_100_100" w))) as Hrun.
  { apply run_eq. vm_compute. reflexivity. }
  split; [exact Hrun|]. split; [reflexivity|].
  exact (second_direction_iff_flag w _ "0_0_0" "100_100_100" resp Hrun eq_refl).
Defined.

Lemma second_direction_is_swap_witness :
  let w := quiet [("radius", "5"); ("bidirectional", "true")] corpus in
  request_radius w = Ok (NFloat (float_of_Z 5))
  ∧ request_bidirectional w = true
  ∧ ∃ resp resp',
      returned (dissociate_by_location "0_0_0" "100_100_100" w) = Some resp
      ∧ returned (dissociate_by_location "100_100_100" "0_0_0" w) = Some resp'
      ∧ field "direction_A_minus_B" (body resp') = field "direction_B_minus_A" (body resp)
      ∧ direction_study_ids "direction_B_minus_A" resp = Some [3].
Proof.
  intros w.
  assert (parse_coords "0_0_0" = Ok (Some (float_of_Z 0, float_of_Z 0, float_of_Z 0))) as Ha
    by (vm_compute; reflexivity).
  assert (parse_coords "100_100_100"
          = Ok (Some (float_of_Z 100, float_of_Z 100, float_of_Z 100))) as Hb
    by (vm_compute; reflexivity).
  assert (request_radius w = Ok (NFloat (float_of_Z 5))) as Hr by (vm_compute; reflexivity).
  destruct (second_direction_is_swap w "0_0_0" "100_100_100" _ _ _ Ha Hb Hr
              eq_refl eq_refl eq_refl eq_refl)
    as (resp & resp' & ab & ba & Hrun & Hrun' & _ & Hba & Hsame & _ & Hids & _).
  split; [exact Hr|]. split; [reflexivity|].
  exists resp, resp'. rewrite Hrun, Hrun'.
  split; [reflexivity|]. split; [reflexivity|]. split; [exact Hsame|].
  transitivity (Some ba).
  - unfold direction_study_ids. rewrite Hba. exact (as_ids_id_list ba).
  - rewrite Hids. vm_compute. reflexivity.
Defined.

Lemma default_radius_is_10_witness :
  let w := quiet [("bidirectional", "true")] corpus in
  dict_get "radius" (args (request w)) = None
  ∧ request_radius w = Ok (NInt 10)
  ∧ ∃ qs, executed (after (dissociate_by_location "0_0_0" "100_100_100" w))
          = (executed w ++ qs)%list
      ∧ length qs = 2%nat
      ∧ Forall (λ q, dict_get "radius" q.2 = Some (BNum (NInt 10))) qs.
Proof.
  intros w.
  destruct (default_radius_is_10 w "0_0_0" "100_100_100" eq_refl)
    as (Hr & qs & Hlog & Hqs & _).
  split; [reflexivity|]. split; [exact Hr|].
  exists qs. split; [exact Hlog|]. split; [|exact Hqs].
  change (executed w) with (@nil (statement * params)) in Hlog.
  rewrite app_nil_l in Hlog. rewrite <- Hlog. vm_compute. reflexivity.
Defined.

Lemma malformed_token_is_400_witness :
  malformed "1_2_x"
  ∧ dissociate_by_location "1_2_x" "0_0_0" (quiet [] corpus)
    = (Raise (mkExn (HTTPException 400) invalid_coordinates), quiet [] corpus)
  ∧ executed (after (dissociate_by_location "1_2_x" "0_0_0" (quiet [] corpus))) = [].
Proof.
  assert (malformed "1_2_x") as Hbad.
  { right. exists "x", could_not_convert. split; [|vm_compute; reflexivity].
    change (split "_" "1_2_x") with ["1"; "2"; "x"]. repeat constructor. }
  destruct (malformed_token_is_400 (quiet [] corpus) "1_2_x" "0_0_0" (or_introl Hbad))
    as (Hrun & Hlog & _).
  split; [exact Hbad|]. split; [exact Hrun|exact Hlog].
Defined.

Lemma no_partial_success_witness :
  let w1 := faulty [("bidirectional", "true")] corpus [Some timeout_error] in
  let w2 := faulty [("bidirectional", "true")] corpus [None; Some connection_lost] in
  (fault_at 0 w1 = Some timeout_error
   ∧ returned (dissociate_by_term "fear" "reward" w1)
     = Some (error_response
               "Database error: canceling statement due to statement timeout")
   ∧ returned (dissociate_by_location "0_0_0" "100_100_100" w1)
     = Some (error_response "Query failed: canceling statement due to statement timeout")
   ∧ length (executed (after (dissociate_by_location "0_0_0" "100_100_100" w1))) = 1%nat)
  ∧ (fault_at 0 w2 = None ∧ fault_at 1 w2 = Some connection_lost
     ∧ returned (dissociate_by_location "0_0_0" "100_100_100" w2)
       = Some (error_response
                 "Database connection failed: server closed the connection unexpectedly")
     ∧ length (executed (after (dissociate_by_location "0_0_0" "100_100_100" w2))) = 2%nat).
Proof.
  intros w1 w2.
  assert (parse_coords "0_0_0" = Ok (Some (float_of_Z 0, float_of_Z 0, float_of_Z 0))) as Ha
    by (vm_compute; reflexivity).
  assert (parse_coords "100_100_100"
          = Ok (Some (float_of_Z 100, float_of_Z 100, float_of_Z 100))) as Hb
    by (vm_compute; reflexivity).
  split.
  - destruct (no_partial_success w1 timeout_error "fear" "reward" "0_0_0" "100_100_100"
                _ _ (NInt 10) eq_refl Ha Hb eq_refl) as (Hfirst & _ & _).
    destruct (Hfirst eq_refl) as [Hterm Hloc].
    split; [reflexivity|]. unfold after. rewrite Hterm, Hloc.
    split; [reflexivity|]. split; reflexivity.
  - destruct (no_partial_success w2 connection_lost "fear" "reward" "0_0_0" "100_100_100"
                _ _ (NInt 10) eq_refl Ha Hb eq_refl) as (_ & Hsecond & _).
    destruct (Hsecond eq_refl eq_refl eq_refl) as [Hloc _].
    split; [reflexivity|]. split; [reflexivity|]. unfold after. rewrite Hloc.
    split; reflexivity.
Defined.

Lemma unparseable_radius_is_ignored_witness :
  let w := quiet [("radius", "ten")] corpus in
  dict_get "radius" (args (request w)) = Some "ten"
  ∧ py_float "ten" = Raise could_not_convert
  ∧ request_radius w = Ok (NInt 10)
  ∧ ∃ ba, returned (dissociate_by_location "0_0_0" "100_100_100" w)
          = Some (location_response "0_0_0" "100_100_100" (NInt 10) [1] ba).
Proof.
  intros w.
  assert (parse_coords "0_0_0" = Ok (Some (float_of_Z 0, float_of_Z 0, float_of_Z 0))) as Ha
    by (vm_compute; reflexivity).
  assert (parse_coords "100_100_100"
          = Ok (Some (float_of_Z 100, float_of_Z 100, float_of_Z 100))) as Hb
    by (vm_compute; reflexivity).
  assert (py_float "ten" = Raise could_not_convert) as He by (vm_compute; reflexivity).
  destruct (unparseable_radius_is_ignored w "0_0_0" "100_100_100" "ten" _ _ _
              eq_refl He Ha Hb) as (Hr & _ & _ & _ & Hok).
  destruct (Hok eq_refl eq_refl eq_refl) as [ba Hrun].
  split; [reflexivity|]. split; [exact He|]. split; [exact Hr|].
  exists ba. rewrite Hrun. vm_compute. reflexivity.
Defined.

(** * The engine, the views and the parser beyond the claims *)

Section EngineProperties.
Context `{PostGIS}.

Lemma prefix_app (p rest : string) : String.prefix p (p +:+ rest) = true.
Proof.
  induction p as [|c p IH]; simpl; [by destruct rest|].
  by destruct (ascii_dec c c).
Qed.

Lemma prefix_split (p u : string) :
  String.prefix p u = true → u = p +:+ drop_chars (String.length p) u.
Proof.
  revert u. induction p as [|c p IH]; intros u; [done|].
  destruct u as [|c' u]; simpl; [done|].
  destruct (ascii_dec c c') as [->|]; [|done].
  intros Hp. change (String c' p +:+ ?x) with (String c' (p +:+ x)). f_equal. by apply IH.
Qed.

(** What [get_engine] makes of a URL read from the environment. *)
Lemma scheme_rewritten (u : string) :
  rewritten u (if String.prefix "postgres://" u
               then "postgresql://" +:+ drop_chars 11 u else u).
Proof.
  destruct (String.prefix "postgres://" u) eqn:Hp; [left|by right].
  exists (drop_chars 11 u). split; [|done]. by apply prefix_split in Hp.
Qed.

Lemma rewritten_scheme (u v : string) :
  rewritten u v → String.prefix "postgres://" v = false.
Proof. intros [(rest & -> & ->)|[Hp ->]]; [done|exact Hp]. Qed.

(** The outcome of [get_engine] without a cached engine. *)
Lemma get_engine_fresh (w : world) :
  _engine w = None →
  get_engine w
  = match configured_url w with
    | Some (String c u) =>
        match create_engine_fault w with
        | Some x => (Raise x, w)
        | None => (Ok (the_engine w), world_after [] w)
        end
    | _ => (Raise missing_url, w)
    end.
Proof.
  unfold get_engine.
  destruct w as [env eng rq db cef cf faults log]; simpl. intros ->.
  unfold world_after, the_engine, configured_url; simpl.
  unfold bind, getenv, create_engine, set_engine, ret, raise, missing_url; simpl.
  destruct (or_else (dict_get "DB_URL" env) (dict_get "DATABASE_URL" env)) as [[|c u]|];
    simpl; try done.
  destruct cef; simpl; [done|]. by rewrite app_nil_r.
Qed.

Lemma get_engine_cached (w : world) (e : engine) :
  _engine w = Some e → get_engine w = (Ok e, w).
Proof. unfold get_engine. by intros ->. Qed.

Lemma same_but_engine_after (w : world) : same_but_engine w (world_after [] w).
Proof. unfold same_but_engine, world_after; simpl. by rewrite app_nil_r. Qed.

(** X1. Once [get_engine] has returned an engine, the engine is cached:
    a later call returns the same engine and changes nothing. The first
    call changes nothing but the cache. *)
Theorem get_engine_caches (w w' : world) (e : engine) :
  get_engine w = (Ok e, w') →
  _engine w' = Some e
  ∧ get_engine w' = (Ok e, w')
  ∧ same_but_engine w w'.
Proof.
  intros Hget.
  assert (_engine w' = Some e ∧ same_but_engine w w') as [Hc Hsame].
  { destruct (_engine w) as [e0|] eqn:Heng.
    - rewrite (get_engine_cached w e0 Heng) in Hget. injection Hget as <- <-.
      split; [done|]. by repeat split.
    - rewrite (get_engine_fresh w Heng) in Hget.
      destruct (configured_url w) as [[|c u]|]; try done.
      destruct (create_engine_fault w); [done|]. injection Hget as <- <-.
      split; [done|]. apply same_but_engine_after. }
  split_and!; [done| |done]. by apply get_engine_cached.
Qed.

(** X2. When [get_engine] raises, the world is as it was and no engine
    is cached. It raises the configuration error exactly when no URL is
    configured, and otherwise what [create_engine] raised. *)
Theorem get_engine_failure_changes_nothing (w w' : world) (x : exn) :
  get_engine w = (Raise x, w') →
  w' = w
  ∧ _engine w = None
  ∧ ((x = missing_url ∧ unset "DB_URL" w ∧ unset "DATABASE_URL" w)
     ∨ (create_engine_fault w = Some x
        ∧ ¬ (unset "DB_URL" w ∧ unset "DATABASE_URL" w))).
Proof.
  intros Hget. destruct (_engine w) as [e0|] eqn:Heng.
  { by rewrite (get_engine_cached w e0 Heng) in Hget. }
  rewrite (get_engine_fresh w Heng) in Hget.
  unfold configured_url, or_else, unset in *.
  destruct (dict_get "DB_URL" (environ w)) as [[|c u]|] eqn:Ha; simpl in Hget;
    destruct (dict_get "DATABASE_URL" (environ w)) as [[|c' u']|] eqn:Hb; simpl in Hget;
    try (injection Hget as <- <-; split_and!; [done|done|left; split_and!; eauto]).
  all: destruct (create_engine_fault w) as [x'|]; [|done].
  all: injection Hget as <- <-; split_and!; [done|done|right; split; [done|]].
  all: intros [[?|?] [?|?]]; congruence.
Qed.

(** X3. Without a cached engine, [get_engine] takes the URL from
    [DB_URL] when that is set and not empty, whatever [DATABASE_URL]
    holds, and from [DATABASE_URL] when [DB_URL] is unset or empty; when
    both are, it raises the configuration error. The new engine has the
    chosen URL with the old scheme name replaced, and pre-ping on. *)
Theorem get_engine_chooses_url (w : world) :
  _engine w = None →
  create_engine_fault w = None →
  (∀ c u, dict_get "DB_URL" (environ w) = Some (String c u) →
     ∃ e, get_engine w = (Ok e, world_after [] w)
          ∧ rewritten (String c u) (url e) ∧ pool_pre_ping e = true)
  ∧ (∀ c u, unset "DB_URL" w → dict_get "DATABASE_URL" (environ w) = Some (String c u) →
       ∃ e, get_engine w = (Ok e, world_after [] w)
            ∧ rewritten (String c u) (url e) ∧ pool_pre_ping e = true)
  ∧ (unset "DB_URL" w → unset "DATABASE_URL" w → get_engine w = (Raise missing_url, w)).
Proof.
  intros Heng Hcef. rewrite (get_engine_fresh w Heng), Hcef.
  unfold the_engine, configured_url, or_else, unset. rewrite Heng.
  split_and!.
  - intros c u ->. simpl. eexists. split; [done|]. split; [apply scheme_rewritten|done].
  - intros c u [->| ->] ->; simpl; (eexists; split; [done|]);
      (split; [apply scheme_rewritten|done]).
  - by intros [->| ->] [->| ->].
Qed.

(** X4. The URL of an engine that [get_engine] has made never starts
    with the old scheme name [postgres://]; a URL that starts with it is
    kept from there on, behind [postgresql://]. *)
Theorem new_engine_scheme (w w' : world) (e : engine) :
  _engine w = None →
  get_engine w = (Ok e, w') →
  String.prefix "postgres://" (url e) = false
  ∧ ∀ rest, (configured_url w = Some ("postgres://" +:+ rest) →
             url e = "postgresql://" +:+ rest).
Proof.
  intros Heng Hget. rewrite (get_engine_fresh w Heng) in Hget.
  destruct (configured_url w) as [[|c u]|] eqn:Hu; try done.
  destruct (create_engine_fault w); [done|]. injection Hget as <- _.
  unfold the_engine. rewrite Heng, Hu. simpl default.
  split.
  - eapply rewritten_scheme, scheme_rewritten.
  - intros rest Hrest.
    assert (String c u = "postgres://" +:+ rest) as -> by congruence.
    rewrite (prefix_app "postgres://" rest). reflexivity.
Qed.
End EngineProperties.

Section ViewProperties.
Context `{PostGIS}.

Ltac into_location w Ha Hb Hr :=
  unfold dissociate_by_location;
  unfold bind at 1; unfold get_request at 1;
  unfold bind at 1; unfold lift at 1;
  fold (request_radius w); rewrite Hr;
  unfold bind at 1; unfold lift at 1; rewrite flag_total, <- request_bidirectional_eq;
  unfold bind at 1; unfold lift at 1; rewrite Ha;
  unfold bind at 1; unfold lift at 1; rewrite Hb;
  unfold try_except; rewrite bind_assoc; unfold bind at 1.

(** ** Failures before any statement *)

Lemma term_when_no_connection (w w' : world) (term_a term_b : string) (x : exn) :
  bind get_engine connect w = (Raise x, w') →
  dissociate_by_term term_a term_b w
  = (Ok (error_response ("Database error: " +:+ exn_str x)), w').
Proof.
  intros Hacq. unfold dissociate_by_term, try_except.
  rewrite bind_assoc. unfold bind at 1. by rewrite Hacq.
Qed.

Lemma location_when_no_connection (w w' : world) (coords_a coords_b : string)
    (p_a p_b : coords) (x : exn) :
  parse_coords coords_a = Ok (Some p_a) →
  parse_coords coords_b = Ok (Some p_b) →
  bind get_engine connect w = (Raise x, w') →
  dissociate_by_location coords_a coords_b w = (Ok (error_response (location_error x)), w').
Proof.
  intros Ha Hb Hacq. destruct (request_radius_total w) as [r Hr].
  into_location w Ha Hb Hr. rewrite Hacq. apply handle_location.
Qed.

Lemma location_error_class (x : exn) :
  (exn_cls x = OperationalError →
   location_error x = "Database connection failed: " +:+ exn_str x)
  ∧ (exn_cls x ≠ OperationalError → location_error x = "Query failed: " +:+ exn_str x).
Proof.
  unfold location_error, caught_by. cbn [existsb].
  destruct (exn_cls x); split; intros Hc; try done.
Qed.

(** X5. Without a cached engine and without a database URL (both
    variables unset or empty), the term view answers 500 with the
    configuration error behind [Database error: ], and the location view,
    given two well-formed tokens, answers 500 with it behind
    [Query failed: ]. The world is as it was: nothing is sent and no
    engine is cached. *)
Theorem unconfigured_database_is_500 (w : world) (term_a term_b coords_a coords_b : string)
    (p_a p_b : coords) :
  _engine w = None →
  unset "DB_URL" w →
  unset "DATABASE_URL" w →
  parse_coords coords_a = Ok (Some p_a) →
  parse_coords coords_b = Ok (Some p_b) →
  dissociate_by_term term_a term_b w
  = (Ok (error_response
           "Database error: Missing DB_URL or DATABASE_URL environment variable."), w)
  ∧ dissociate_by_location coords_a coords_b w
    = (Ok (error_response
             "Query failed: Missing DB_URL or DATABASE_URL environment variable."), w).
Proof.
  intros Heng Hdb Hdatabase Ha Hb.
  assert (bind get_engine connect w = (Raise missing_url, w)) as Hacq.
  { unfold bind. rewrite (get_engine_fresh w Heng).
    unfold configured_url, or_else, unset in *.
    by destruct Hdb as [->| ->], Hdatabase as [->| ->]. }
  split.
  - by rewrite (term_when_no_connection w w _ _ _ Hacq).
  - by rewrite (location_when_no_connection w w _ _ _ _ _ Ha Hb Hacq).
Qed.
(** X6. When an engine can be had and [engine.connect()] raises, both
    views answer 500 and send nothing. The location view puts the text
    of the exception behind [Database connection failed: ] when the
    exception is an [OperationalError] and behind [Query failed: ] for
    every other class; the term view puts it behind [Database error: ]. *)
Theorem connection_failure_is_500 (w w1 : world) (e : engine) (x : exn)
    (term_a term_b coords_a coords_b : string) (p_a p_b : coords) :
  get_engine w = (Ok e, w1) →
  connect_fault w = Some x →
  parse_coords coords_a = Ok (Some p_a) →
  parse_coords coords_b = Ok (Some p_b) →
  dissociate_by_term term_a term_b w
  = (Ok (error_response ("Database error: " +:+ exn_str x)), w1)
  ∧ dissociate_by_location coords_a coords_b w
    = (Ok (error_response (location_error x)), w1)
  ∧ executed w1 = executed w
  ∧ (exn_cls x = OperationalError →
     location_error x = "Database connection failed: " +:+ exn_str x)
  ∧ (exn_cls x ≠ OperationalError → location_error x = "Query failed: " +:+ exn_str x).
Proof.
  intros Hget Hcf Ha Hb.
  assert (same_but_engine w w1) as Hsame.
  { destruct (_engine w) as [e0|] eqn:Heng.
    - rewrite (get_engine_cached w e0 Heng) in Hget. injection Hget as _ <-.
      by repeat split.
    - rewrite (get_engine_fresh w Heng) in Hget.
      destruct (configured_url w) as [[|c u]|]; try done.
      destruct (create_engine_fault w); [done|]. injection Hget as _ <-.
      apply same_but_engine_after. }
  destruct Hsame as (_ & _ & _ & _ & Hcf1 & _ & Hlog).
  assert (bind get_engine connect w = (Raise x, w1)) as Hacq.
  { unfold bind. rewrite Hget. unfold connect. by rewrite Hcf1, Hcf. }
  split_and!.
  - by apply term_when_no_connection.
  - by eapply location_when_no_connection.
  - done.
  - apply location_error_class.
  - apply location_error_class.
Qed.

(** ** How many statements a request sends *)

(** X7. Whatever the world and the input, the term view sends at most
    one statement and the location view at most two, and only one unless
    the request is bidirectional or when the first one fails. A request
    that cannot have a connection, or whose tokens are malformed, sends
    none. *)
Theorem statements_sent_are_bounded (w : world) (term_a term_b coords_a coords_b : string) :
  (∃ qs, executed (after (dissociate_by_term term_a term_b w)) = (executed w ++ qs)%list
     ∧ (length qs ≤ 1)%nat
     ∧ (engine_ready w = false → qs = []))
  ∧ (∃ qs, executed (after (dissociate_by_location coords_a coords_b w))
           = (executed w ++ qs)%list
       ∧ (length qs ≤ 2)%nat
       ∧ (request_bidirectional w = false → (length qs ≤ 1)%nat)
       ∧ (fault_at 0 w ≠ None → (length qs ≤ 1)%nat)
       ∧ (engine_ready w = false → qs = [])
       ∧ (malformed coords_a ∨ malformed coords_b → qs = [])).
Proof.
  unfold after. split.
  - destruct (engine_ready w) eqn:Hready.
    + rewrite (dissociate_by_term_ready w _ _ Hready). simpl.
      eexists. split; [done|]. simpl. split; [lia|done].
    + destruct (dissociate_by_term_unready w term_a term_b Hready) as (x & w' & -> & Hlog).
      exists []. rewrite app_nil_r. simpl. split_and!; [done|lia|done].
  - destruct (parse_coords_total coords_a) as [[p_a|] Ha].
    2: { rewrite dissociate_by_location_invalid by eauto.
         exists []. rewrite app_nil_r. simpl. split_and!; first [done|lia]. }
    destruct (parse_coords_total coords_b) as [[p_b|] Hb].
    2: { rewrite dissociate_by_location_invalid by eauto.
         exists []. rewrite app_nil_r. simpl. split_and!; first [done|lia]. }
    assert (¬ (malformed coords_a ∨ malformed coords_b)) as Hwell.
    { intros [Hbad|Hbad]; apply parse_coords_None in Hbad; congruence. }
    destruct (engine_ready w) eqn:Hready.
    2: { destruct (dissociate_by_location_unready w _ _ _ _ Ha Hb Hready)
           as (x & w' & -> & Hlog).
         exists []. rewrite app_nil_r. simpl. split_and!; first [done|lia]. }
    destruct (request_radius_total w) as [r Hr].
    rewrite (dissociate_by_location_ready w _ _ _ _ r Ha Hb Hr Hready).
    destruct (fault_at 0 w) as [x|].
    { eexists. simpl. split; [done|]. simpl. split_and!; first [done|lia]. }
    cbv zeta. destruct (request_bidirectional w).
    + eexists. simpl. split; [done|]. simpl. split_and!; first [done|lia].
    + eexists. simpl. split; [done|]. simpl. split_and!; first [done|lia].
Qed.

(** ** A radius given by the request *)

(** X8. A [radius] parameter that [float] accepts is used as it is,
    without any check of its range or sign: every statement sent binds
    [radius] to that float, and a successful response echoes it. *)
Theorem supplied_radius_is_used (w : world) (coords_a coords_b v : string) (f : spec_float) :
  dict_get "radius" (args (request w)) = Some v →
  py_float v = Ok f →
  request_radius w = Ok (NFloat f)
  ∧ ∃ qs, executed (after (dissociate_by_location coords_a coords_b w))
          = (executed w ++ qs)%list
      ∧ Forall (λ q, dict_get "radius" q.2 = Some (BNum (NFloat f))) qs
      ∧ ∀ resp, returned (dissociate_by_location coords_a coords_b w) = Some resp →
          status resp = 200 → field "radius" (body resp) = Some (PyNum (NFloat f)).
Proof.
  intros Hv Hf.
  assert (request_radius w = Ok (NFloat f)) as Hr.
  { unfold request_radius, multidict_get, float. by rewrite Hv, Hf. }
  split; [done|].
  destruct (location_uses_radius w coords_a coords_b _ Hr) as (qs & Hlog & Hqs & Hresp).
  exists qs. split_and!; [done|done|].
  intros resp Hret Hst. by destruct (Hresp resp Hret Hst).
Qed.

(** ** The blocks of a location response *)

Lemma direction_fields (from not : string) (ids : list Z) (resp : response) (dir : string) :
  field dir (body resp) = Some (direction from not ids) →
  block_field dir "from" resp = Some (PyStr from)
  ∧ block_field dir "not" resp = Some (PyStr not)
  ∧ block_field dir "count" resp = Some (PyNum (NInt (Z.of_nat (length ids))))
  ∧ block_field dir "study_ids" resp = Some (id_list ids).
Proof. unfold block_field. intros ->. done. Qed.

(** X9. In every successful response of the location view, the block
    [direction_A_minus_B] names [coords_a] as [from] and [coords_b] as
    [not], and its [count] is the length of its [study_ids], at most 250;
    a block [direction_B_minus_A], when there is one, names the tokens
    the other way round and its [count] is the length of its own list. *)
Theorem count_is_length_of_study_ids (w w' : world) (coords_a coords_b : string)
    (resp : response) :
  dissociate_by_location coords_a coords_b w = (Ok resp, w') →
  status resp = 200 →
  (∃ ab,
     block_field "direction_A_minus_B" "from" resp = Some (PyStr coords_a)
     ∧ block_field "direction_A_minus_B" "not" resp = Some (PyStr coords_b)
     ∧ block_field "direction_A_minus_B" "count" resp
       = Some (PyNum (NInt (Z.of_nat (length ab))))
     ∧ block_field "direction_A_minus_B" "study_ids" resp = Some (id_list ab)
     ∧ (length ab ≤ 250)%nat)
  ∧ (has_key "direction_B_minus_A" (body resp) = true →
     ∃ ba,
       block_field "direction_B_minus_A" "from" resp = Some (PyStr coords_b)
       ∧ block_field "direction_B_minus_A" "not" resp = Some (PyStr coords_a)
       ∧ block_field "direction_B_minus_A" "count" resp
         = Some (PyNum (NInt (Z.of_nat (length ba))))
       ∧ block_field "direction_B_minus_A" "study_ids" resp = Some (id_list ba)
       ∧ (length ba ≤ 250)%nat).
Proof.
  intros Hrun Hstatus.
  destruct (parse_coords_total coords_a) as [[p_a|] Ha].
  2: { rewrite dissociate_by_location_invalid in Hrun by eauto. done. }
  destruct (parse_coords_total coords_b) as [[p_b|] Hb].
  2: { rewrite dissociate_by_location_invalid in Hrun by eauto. done. }
  destruct (request_radius_total w) as [r Hr].
  destruct (engine_ready w) eqn:Hready.
  2: { destruct (dissociate_by_location_unready w _ _ _ _ Ha Hb Hready)
         as (x & w1 & Hrun' & _).
       rewrite Hrun' in Hrun. injection Hrun as <- _. done. }
  rewrite (dissociate_by_location_ready w _ _ _ _ r Ha Hb Hr Hready) in Hrun.
  destruct (fault_at 0 w).
  { injection Hrun as <- _. done. }
  cbv zeta in Hrun. destruct (request_bidirectional w).
  - destruct (fault_at 1 w); injection Hrun as <- _; [done|].
    split.
    + eexists. split_and!; try done. apply length_take_bound.
    + intros _. eexists. split_and!; try done. apply length_take_bound.
  - injection Hrun as <- _. split; [|done].
    eexists. split_and!; try done. apply length_take_bound.
Qed.

(** ** The same request again *)

Lemma fault_at_world_after (qs : list (statement * params)) (w : world) (k : nat) :
  fault_at k (world_after qs w) = fault_at (length qs + k) w.
Proof. unfold fault_at, world_after; simpl. by rewrite lookup_drop. Qed.

Lemma engine_ready_world_after (qs : list (statement * params)) (w : world) :
  engine_ready w = true → engine_ready (world_after qs w) = true.
Proof.
  unfold engine_ready, world_after; simpl.
  intros [_ Hc]%andb_prop. by rewrite Hc.
Qed.

(** X10. In a ready world with no fault in store, a request answered
    once is answered the same when it is made again in the world the
    first answer left: the data is only read, and the engine cached by
    the first request serves the second. *)
Theorem same_request_same_answer (w : world) (term_a term_b coords_a coords_b : string) :
  engine_ready w = true →
  (∀ k, fault_at k w = None) →
  returned (dissociate_by_term term_a term_b (after (dissociate_by_term term_a term_b w)))
  = returned (dissociate_by_term term_a term_b w)
  ∧ returned (dissociate_by_location coords_a coords_b
                (after (dissociate_by_location coords_a coords_b w)))
    = returned (dissociate_by_location coords_a coords_b w)
  ∧ ∃ resp, returned (dissociate_by_term term_a term_b w) = Some resp ∧ status resp = 200.
Proof.
  intros Hready Hquiet. unfold after. split_and!.
  - rewrite (dissociate_by_term_ready w _ _ Hready), Hquiet. simpl snd.
    rewrite (dissociate_by_term_ready (world_after _ w) _ _
               (engine_ready_world_after _ w Hready)).
    by rewrite fault_at_world_after, Hquiet.
  - destruct (parse_coords_total coords_a) as [[p_a|] Ha].
    2: { by rewrite !dissociate_by_location_invalid by eauto. }
    destruct (parse_coords_total coords_b) as [[p_b|] Hb].
    2: { by rewrite !dissociate_by_location_invalid by eauto. }
    destruct (request_radius_total w) as [r Hr].
    rewrite (dissociate_by_location_ready w _ _ _ _ r Ha Hb Hr Hready), !Hquiet.
    cbv zeta. destruct (request_bidirectional w) eqn:Hbi; simpl snd.
    + rewrite (dissociate_by_location_ready (world_after _ w) _ _ _ _ r Ha Hb Hr
                 (engine_ready_world_after _ w Hready)).
      rewrite !fault_at_world_after, !Hquiet. cbv zeta.
      change (request_bidirectional (world_after _ w)) with (request_bidirectional w).
      by rewrite Hbi.
    + rewrite (dissociate_by_location_ready (world_after _ w) _ _ _ _ r Ha Hb Hr
                 (engine_ready_world_after _ w Hready)).
      rewrite !fault_at_world_after, !Hquiet. cbv zeta.
      change (request_bidirectional (world_after _ w)) with (request_bidirectional w).
      by rewrite Hbi.
  - rewrite (dissociate_by_term_ready w _ _ Hready), Hquiet. eauto.
Qed.
End ViewProperties.

Section ParserProperties.
Context `{PostGIS}.

(** ** The shape of an accepted token *)

Lemma length_split (sep : ascii) (s : string) :
  length (split sep s) = S (count_char sep s).
Proof.
  induction s as [|c s IH]; [done|]. cbn [split count_char].
  destruct (Ascii.eqb c sep); simpl; [by rewrite IH|].
  pose proof (split_not_nil sep s) as Hnil.
  destruct (split sep s) as [|p ps]; [done|]. simpl in *. lia.
Qed.

(** X11. A token for which the parser returns a value has exactly two
    underscores, and each of its three parts is non-empty, has no
    underscore of its own and is accepted by [float]: a token that starts
    or ends with an underscore, or has two in a row, is rejected. *)
Theorem accepted_token_shape (s : string) (x y z : spec_float) :
  parse_coords s = Ok (Some (x, y, z)) →
  count_char "_" s = 2%nat
  ∧ ∀ p, p ∈ split "_" s →
      p ≠ EmptyString ∧ contains "_" p = false ∧ ∃ f, py_float p = Ok f.
Proof.
  intros (p1 & p2 & p3 & Hs & H1 & H2 & H3)%parse_coords_Some.
  split.
  - pose proof (length_split "_" s) as Hlen. rewrite Hs in Hlen. simpl in Hlen. lia.
  - intros p Hp.
    assert (∃ f, py_float p = Ok f) as [f Hf].
    { rewrite Hs in Hp.
      apply elem_of_cons in Hp as [->|Hp]; [eauto|].
      apply elem_of_cons in Hp as [->|Hp]; [eauto|].
      apply elem_of_cons in Hp as [->|Hp]; [eauto|].
      by apply elem_of_nil in Hp. }
    split_and!; [| |eauto].
    + intros ->. vm_compute in Hf. discriminate Hf.
    + pose proof (split_without_sep "_" s) as Hall.
      rewrite Forall_forall in Hall. by apply Hall.
Qed.

(** ** Integers written in decimal *)













End ParserProperties.

Section InspectionProperties.
Context `{Inspection}.

(** ** [test_db], step by step *)

Lemma world_after_nil (w : world) : world_after [] w = world_inspected 0 w.
Proof. unfold world_after, world_inspected; simpl. by rewrite app_nil_r. Qed.

Lemma execute_text_inspected (k : nat) (f : frame) (w : world) (conn : engine)
    (sql : string) :
  execute_text conn sql f (world_inspected k w)
  = (match fault_at k w with
     | Some e => Raise e
     | None => Ok (answer sql (ns w))
     end, mkFrame (payload f) (sent f ++ [sql]), world_inspected (S k) w).
Proof.
  unfold execute_text.
  assert (fault_at 0 (world_inspected k w) = fault_at k w) as ->.
  { unfold fault_at, world_inspected; simpl. by rewrite lookup_drop, Nat.add_0_r. }
  assert (∀ w0, mkWorld (environ (world_inspected k w)) (_engine (world_inspected k w))
                  (request (world_inspected k w)) (ns (world_inspected k w))
                  (create_engine_fault (world_inspected k w))
                  (connect_fault (world_inspected k w))
                  (tail (execute_faults (world_inspected k w)))
                  (executed (world_inspected k w)) = w0
                → world_inspected (S k) w = w0) as Hw.
  { intros w0 <-. unfold world_inspected; simpl. by rewrite drop_S_tail. }
  rewrite <- (Hw _ eq_refl). by destruct (fault_at k w).
Qed.

(** Getting the engine and the connection inside [test_db]. *)
Lemma acquire_in_frame {A : Type} (k : engine → P A) (f : frame) (w : world) :
  bindP (liftP get_engine) (λ engine, bindP (liftP (connect engine)) k) f w
  = match bind get_engine connect w with
    | (Ok conn, w') => k conn f w'
    | (Raise x, w') => (Raise x, f, w')
    end.
Proof.
  unfold bindP, liftP, bind.
  destruct (get_engine w) as [[e|x] w1]; [|done].
  by destruct (connect e w1) as [[conn|x] w2].
Qed.

(** The report after a failure of the [k]-th statement, and after none. *)
Lemma test_db_ready (w : world) :
  engine_ready w = true →
  test_db fresh w
  = match first_fault_from 0 6 w with
    | Some (k, e) =>
        let body := ("ok", IBool false)
                    :: (planned_item (ns w) <$> take k inspection_plan)
                    ++ [("error", IStr (exn_str e))] in
        (Ok (mkReport body 500),
         mkFrame body (planned_text <$> take (S k) inspection_plan),
         world_inspected (S k) w)
    | None =>
        let body := ("ok", IBool true) :: (planned_item (ns w) <$> inspection_plan) in
        (Ok (mkReport body 200),
         mkFrame body (planned_text <$> inspection_plan),
         world_inspected 6 w)
    end.
Proof.
  intros Hready. unfold test_db.
  unfold bindP at 1. unfold new_payload at 1. unfold try_except_P.
  rewrite acquire_in_frame.
  pose proof (acquire_spec w) as Hacq.
  destruct (bind get_engine connect w) as [[conn|x] w1].
  2: { destruct Hacq as [Hno _]. congruence. }
  destruct Hacq as (_ & -> & ->). rewrite world_after_nil.
  cbn [first_fault_from].
  unfold bindP at 1. rewrite execute_text_inspected.
  destruct (fault_at 0 w) as [e|]; [done|].
  unfold bindP at 1. unfold set_item at 1. unfold bindP at 1.
  rewrite execute_text_inspected.
  destruct (fault_at 1 w) as [e|]; [done|].
  unfold bindP at 1. unfold set_item at 1. unfold bindP at 1.
  rewrite execute_text_inspected.
  destruct (fault_at 2 w) as [e|]; [done|].
  unfold bindP at 1. unfold set_item at 1. unfold bindP at 1.
  rewrite execute_text_inspected.
  destruct (fault_at 3 w) as [e|]; [done|].
  unfold bindP at 1. unfold set_item at 1. unfold bindP at 1.
  rewrite execute_text_inspected.
  destruct (fault_at 4 w) as [e|]; [done|].
  unfold bindP at 1. unfold set_item at 1. unfold bindP at 1.
  rewrite execute_text_inspected.
  destruct (fault_at 5 w) as [e|]; [done|].
  done.
Qed.

Lemma test_db_unready (w : world) :
  engine_ready w = false →
  ∃ x w', bind get_engine connect w = (Raise x, w')
    ∧ executed w' = executed w
    ∧ test_db fresh w
      = (Ok (mkReport [("ok", IBool false); ("error", IStr (exn_str x))] 500),
         mkFrame [("ok", IBool false); ("error", IStr (exn_str x))] [], w').
Proof.
  intros Hready. unfold test_db.
  unfold bindP at 1. unfold new_payload at 1. unfold try_except_P.
  rewrite acquire_in_frame.
  pose proof (acquire_spec w) as Hacq.
  destruct (bind get_engine connect w) as [[conn|x] w1].
  { destruct Hacq as [Hyes _]. congruence. }
  destruct Hacq as [_ Hlog]. exists x, w1. done.
Qed.



Lemma first_fault_from_bound (i n k : nat) (w : world) (e : exn) :
  first_fault_from i n w = Some (k, e) → (i ≤ k < i + n)%nat ∧ fault_at k w = Some e.
Proof.
  revert i. induction n as [|n IH]; intros i; cbn [first_fault_from]; [done|].
  destruct (fault_at i w) as [x|] eqn:Hi.
  - intros [= <- <-]. split; [lia|done].
  - intros Hrest. apply IH in Hrest as [Hk Hf]. split; [lia|done].
Qed.

(** X13. [test_db] never raises. It returns either status 200 with [ok]
    true, no [error] key and all six statements sent, or status 500 with
    [ok] false and the text of the exception under [error]. It sends at
    most six statements. *)
Theorem test_db_always_reports (w : world) :
  ∃ rep f' w',
    test_db fresh w = (Ok rep, f', w')
    ∧ (length (sent f') ≤ 6)%nat
    ∧ ((report_status rep = 200
        ∧ dict_get "ok" (report_body rep) = Some (IBool true)
        ∧ dict_get "error" (report_body rep) = None
        ∧ length (sent f') = 6%nat)
       ∨ (report_status rep = 500
          ∧ dict_get "ok" (report_body rep) = Some (IBool false)
          ∧ ∃ x, dict_get "error" (report_body rep) = Some (IStr (exn_str x)))).
Proof.
  destruct (engine_ready w) eqn:Hready.
  2: { destruct (test_db_unready w Hready) as (x & w' & _ & _ & ->).
       eexists _, _, _. split; [done|]. split; [simpl; lia|]. right. eauto. }
  rewrite (test_db_ready w Hready).
  destruct (first_fault_from 0 6 w) as [[k e]|] eqn:Hff.
  - apply first_fault_from_bound in Hff as [Hk _].
    eexists _, _, _. split; [done|].
    do 6 (destruct k as [|k]; [split; [simpl; lia|right; simpl; eauto]|]). lia.
  - eexists _, _, _. split; [done|]. split; [simpl; lia|]. left. done.
Qed.



(** X16. When no connection can be had, [test_db] sends nothing and
    reports status 500 with [ok] false and the text of what
    [get_engine] or [connect] raised under [error], and nothing else. *)
Theorem test_db_without_connection (w : world) :
  engine_ready w = false →
  ∃ x f' w',
    bind get_engine connect w = (Raise x, w')
    ∧ test_db fresh w
      = (Ok (mkReport [("ok", IBool false); ("error", IStr (exn_str x))] 500), f', w')
    ∧ sent f' = []
    ∧ executed w' = executed w.
Proof.
  intros Hready.
  destruct (test_db_unready w Hready) as (x & w' & Hacq & Hlog & ->).
  eexists _, _, _. done.
Qed.
End InspectionProperties.

(** * The further properties on the concrete corpus *)

Lemma get_engine_caches_witness :
  let w := quiet [] corpus in
  let e := mkEngine "postgresql://localhost/ns" true in
  get_engine w = (Ok e, world_after [] w)
  ∧ _engine (world_after [] w) = Some e
  ∧ get_engine (world_after [] w) = (Ok e, world_after [] w).
Proof.
  intros w e.
  assert (get_engine w = (Ok e, world_after [] w)) as Hget by reflexivity.
  destruct (get_engine_caches w _ e Hget) as (Hc & Hagain & _).
  split; [exact Hget|]. split; [exact Hc|exact Hagain].
Defined.

Lemma get_engine_failure_changes_nothing_witness :
  let w := unconfigured [] corpus in
  get_engine w = (Raise missing_url, w) ∧ _engine w = None.
Proof.
  intros w.
  assert (get_engine w = (Raise missing_url, w)) as Hget by reflexivity.
  destruct (get_engine_failure_changes_nothing w w missing_url Hget) as (_ & Hnone & _).
  split; [exact Hget|exact Hnone].
Defined.

Lemma get_engine_chooses_url_witness :
  let w := mkWorld [("DB_URL", ""); ("DATABASE_URL", "postgres://db.example/ns")] None
             (mkRequest []) corpus None None [] [] in
  unset "DB_URL" w
  ∧ ∃ e, get_engine w = (Ok e, world_after [] w)
         ∧ rewritten "postgres://db.example/ns" (url e) ∧ pool_pre_ping e = true.
Proof.
  intros w.
  assert (unset "DB_URL" w) as Hunset by (right; reflexivity).
  destruct (get_engine_chooses_url w eq_refl eq_refl) as (_ & Hsecond & _).
  split; [exact Hunset|].
  exact (Hsecond "p"%char "ostgres://db.example/ns" Hunset eq_refl).
Defined.

Lemma new_engine_scheme_witness :
  let w := quiet [] corpus in
  let e := mkEngine "postgresql://localhost/ns" true in
  get_engine w = (Ok e, world_after [] w)
  ∧ String.prefix "postgres://" (url e) = false.
Proof.
  intros w e.
  assert (get_engine w = (Ok e, world_after [] w)) as Hget by reflexivity.
  destruct (new_engine_scheme w _ e eq_refl Hget) as [Hscheme _].
  split; [exact Hget|exact Hscheme].
Defined.

Lemma unconfigured_database_is_500_witness :
  let w := unconfigured [] corpus in
  unset "DB_URL" w ∧ unset "DATABASE_URL" w
  ∧ returned (dissociate_by_term "fear" "reward" w)
    = Some (error_response
              "Database error: Missing DB_URL or DATABASE_URL environment variable.")
  ∧ after (dissociate_by_location "0_0_0" "100_100_100" w) = w.
Proof.
  intros w.
  assert (unset "DB_URL" w) as Ha by (right; reflexivity).
  assert (unset "DATABASE_URL" w) as Hb by (left; reflexivity).
  assert (parse_coords "0_0_0" = Ok (Some (float_of_Z 0, float_of_Z 0, float_of_Z 0))) as Hpa
    by (vm_compute; reflexivity).
  assert (parse_coords "100_100_100"
          = Ok (Some (float_of_Z 100, float_of_Z 100, float_of_Z 100))) as Hpb
    by (vm_compute; reflexivity).
  destruct (unconfigured_database_is_500 w "fear" "reward" "0_0_0" "100_100_100" _ _
              eq_refl Ha Hb Hpa Hpb) as [Hterm Hloc].
  split; [exact Ha|]. split; [exact Hb|]. unfold after. rewrite Hterm, Hloc.
  split; reflexivity.
Defined.

Lemma connection_failure_is_500_witness :
  let w := mkWorld [("DB_URL", "postgres://localhost/ns")] None (mkRequest []) corpus
             None (Some connection_lost) [] [] in
  connect_fault w = Some connection_lost
  ∧ returned (dissociate_by_location "0_0_0" "100_100_100" w)
    = Some (error_response
              "Database connection failed: server closed the connection unexpectedly")
  ∧ returned (dissociate_by_term "fear" "reward" w)
    = Some (error_response "Database error: server closed the connection unexpectedly").
Proof.
  intros w.
  assert (parse_coords "0_0_0" = Ok (Some (float_of_Z 0, float_of_Z 0, float_of_Z 0))) as Hpa
    by (vm_compute; reflexivity).
  assert (parse_coords "100_100_100"
          = Ok (Some (float_of_Z 100, float_of_Z 100, float_of_Z 100))) as Hpb
    by (vm_compute; reflexivity).
  assert (get_engine w = (Ok (the_engine w), world_after [] w)) as Hget by reflexivity.
  destruct (connection_failure_is_500 w _ _ connection_lost "fear" "reward"
              "0_0_0" "100_100_100" _ _ Hget eq_refl Hpa Hpb)
    as (Hterm & Hloc & _ & Hop & _).
  split; [reflexivity|]. rewrite Hterm, Hloc. unfold returned. cbn [fst].
  rewrite (Hop eq_refl). split; reflexivity.
Defined.

Lemma supplied_radius_is_used_witness :
  let w := quiet [("radius", "-5")] corpus in
  py_float "-5" = Ok (float_of_Z (-5))
  ∧ request_radius w = Ok (NFloat (float_of_Z (-5)))
  ∧ ∃ resp, returned (dissociate_by_location "0_0_0" "100_100_100" w) = Some resp
      ∧ field "radius" (body resp) = Some (PyNum (NFloat (float_of_Z (-5)))).
Proof.
  intros w.
  assert (py_float "-5" = Ok (float_of_Z (-5))) as Hf by (vm_compute; reflexivity).
  destruct (supplied_radius_is_used w "0_0_0" "100_100_100" "-5" _ eq_refl Hf)
    as (Hr & qs & _ & _ & Hecho).
  split; [exact Hf|]. split; [exact Hr|].
  assert (∃ resp, returned (dissociate_by_location "0_0_0" "100_100_100" w) = Some resp
                  ∧ status resp = 200) as (resp & Hret & Hst).
  { eexists. split; [vm_compute; reflexivity|reflexivity]. }
  exists resp. split; [exact Hret|exact (Hecho resp Hret Hst)].
Defined.

Lemma count_is_length_of_study_ids_witness :
  let w := quiet [("bidirectional", "TRUE")] corpus in
  let resp := location_response "0_0_0" "100_100_100" (NInt 10) [1] (Some [3]) in
  fst (dissociate_by_location "0_0_0" "100_100_100" w) = Ok resp
  ∧ ∃ ab, block_field "direction_A_minus_B" "count" resp
          = Some (PyNum (NInt (Z.of_nat (length ab))))
      ∧ block_field "direction_A_minus_B" "study_ids" resp = Some (id_list ab).
Proof.
  intros w resp.
  assert (fst (dissociate_by_location "0_0_0" "100_100_100" w) = Ok resp) as Hfst
    by (vm_compute; reflexivity).
  destruct (count_is_length_of_study_ids w _ "0_0_0" "100_100_100" resp
              (run_eq _ _ Hfst) eq_refl) as [(ab & _ & _ & Hcount & Hids & _) _].
  split; [exact Hfst|]. exists ab. split; [exact Hcount|exact Hids].
Defined.

Lemma same_request_same_answer_witness :
  let w := quiet [] corpus in
  engine_ready w = true
  ∧ returned (dissociate_by_term "fear" "reward"
                (after (dissociate_by_term "fear" "reward" w)))
    = returned (dissociate_by_term "fear" "reward" w)
  ∧ ∃ resp, returned (dissociate_by_term "fear" "reward" w) = Some resp ∧ status resp = 200.
Proof.
  intros w.
  assert (∀ k, fault_at k w = None) as Hquiet.
  { intros k. destruct k; reflexivity. }
  destruct (same_request_same_answer w "fear" "reward" "0_0_0" "100_100_100"
              eq_refl Hquiet) as (Hterm & _ & Hok).
  split; [reflexivity|]. split; [exact Hterm|exact Hok].
Defined.

Lemma accepted_token_shape_witness :
  parse_coords "0_-52_26" = Ok (Some (float_of_Z 0, float_of_Z (-52), float_of_Z 26))
  ∧ count_char "_" "0_-52_26" = 2%nat.
Proof.
  assert (parse_coords "0_-52_26"
          = Ok (Some (float_of_Z 0, float_of_Z (-52), float_of_Z 26))) as Hp
    by (vm_compute; reflexivity).
  destruct (accepted_token_shape "0_-52_26" _ _ _ Hp) as [Hcount _].
  split; [exact Hp|exact Hcount].
Defined.



Lemma test_db_without_connection_witness :
  let w := unconfigured [] corpus in
  engine_ready w = false
  ∧ ∃ f' w',
      test_db fresh w
      = (Ok (mkReport [("ok", IBool false);
                       ("error",
                        IStr "Missing DB_URL or DATABASE_URL environment variable.")] 500),
         f', w')
      ∧ sent f' = [].
Proof.
  intros w.
  destruct (test_db_without_connection w eq_refl) as (x & f' & w' & Hacq & Hrun & Hsent & _).
  assert (bind get_engine connect w = (Raise missing_url, w)) as Hacq' by reflexivity.
  rewrite Hacq' in Hacq. injection Hacq as <- <-.
  split; [reflexivity|]. exists f', w. split; [exact Hrun|exact Hsent].
Defined.
